(** * IgeNetIoClient: the client-side net.io component

    A shallow embedding of
    [engine/components/network/net.io/IgeNetIoClient.js] and the
    properties of its command table, dispatcher and request tracker.

    The component is one JavaScript object whose methods mutate its own
    properties, read and write a few global identifiers, and talk to
    collaborators (the net.io socket, the logger, the event emitter and the
    functions handed in by calling code).  Methods are embedded as
    computations in a small state-and-exception monad over a [world]: the
    component's properties, the global scope, and the trace of calls made
    to collaborators.

    Conventions.  Line numbers are those of the JavaScript file.  The
    objects the component uses as tables ([_requests] and the three
    command tables) are plain objects: a finite map holds their own
    properties, and a read by name that finds no own property goes on to
    the members every object inherits ([inherited]); the command table
    keeps its properties in the order a [for (i in ...)] loop visits
    them.  Numbers are integers.  A call to a collaborator is recorded in
    the trace and returns normally, without calling back into the
    component. *)

From stdpp Require Import gmap strings list fin_maps pretty.

Open Scope Z_scope.
Open Scope string_scope.

(** ** JavaScript values *)

(** Function values.  A function supplied by calling code is known by its
    text only; the two request-tracker methods of the component are
    function values too, since the handshake binds them as handlers
    (lines 57 and 58). *)
Inductive fn :=
| Collaborator (text : string)
| Method_onRequest
| Method_onResponse
| Builtin (name : string).     (* a function member of [Object.prototype] *)

Set Warnings "-register-all".

(** Values: numbers are integers (indices, counters and clock readings),
    and past 2^53, where JavaScript's numbers thin out, [VNum n] stands for
    the number nearest to [n]; an object is the list of its own properties
    in insertion order. *)
Inductive value :=
| VUndef
| VNull
| VBool (b : bool)
| VNum (n : Z)
| VStr (s : string)
| VArr (items : list value)
| VObj (props : list (string * value))
| VFun (f : fn).

Definition is_undefined (v : value) : bool :=
  match v with VUndef => true | _ => false end.

(** [typeof v === 'function'] *)
Definition is_function (v : value) : bool :=
  match v with VFun _ => true | _ => false end.

(** ToBoolean, as used by [if (req)] and [if (handler)]. *)
Definition truthy (v : value) : bool :=
  match v with
  | VUndef | VNull => false
  | VBool b => b
  | VNum n => negb (Z.eqb n 0)
  | VStr s => negb (String.eqb s "")
  | VArr _ | VObj _ | VFun _ => true
  end.

(** The text of a function value is left to the implementation by the
    language standard; the two methods print as a fixed placeholder. *)
Definition fn_text (f : fn) : string :=
  match f with
  | Collaborator text => text
  | Method_onRequest => "function (data) { [_onRequest] }"
  | Method_onResponse => "function (data) { [_onResponse] }"
  | Builtin name => "function " +:+ name +:+ "() { [native code] }"
  end.

(** *** Numbers as text

    Number::toString for an integer: the number is first taken to the
    nearest one JavaScript can hold, then written with as few significant
    digits as tell it from its neighbours, in full below 10^21 and with an
    exponent from there on. *)

(** The double nearest to [m > 0], ties to the even mantissa. *)
Definition nearest_double (m : Z) : Z :=
  let e := Z.log2 m in
  if Z.ltb e 53 then m
  else
    let ulp := (2 ^ (e - 52))%Z in
    let q := (m / ulp)%Z in
    let r := (m mod ulp)%Z in
    let half := (ulp / 2)%Z in
    let q' := if Z.ltb r half then q
              else if Z.ltb half r then (q + 1)%Z
              else if Z.even q then q else (q + 1)%Z in
    (q' * ulp)%Z.

(** Whether the decimal [c] reads back as the double [v >= 2^53]: it lies
    between the midpoints to the neighbours of [v], which count when the
    mantissa of [v] is even. *)
Definition rounds_to (v c : Z) : bool :=
  let ulp := (2 ^ (Z.log2 v - 52))%Z in
  let q := (v / ulp)%Z in
  let below := if Z.eqb q (2 ^ 52) then ulp else (2 * ulp)%Z in
  let above := (2 * ulp)%Z in
  if Z.even q
  then Z.leb (4 * v - below) (4 * c) && Z.leb (4 * c) (4 * v + above)
  else Z.ltb (4 * v - below) (4 * c) && Z.ltb (4 * c) (4 * v + above).

Definition decimal_length (n : Z) : Z := Z.of_nat (String.length (pretty n)).

(** The decimal with the fewest significant digits, [k] or more, that
    reads back as [v]; of two, the nearer one. *)
Fixpoint shortest_decimal (fuel : nat) (v k : Z) : Z :=
  match fuel with
  | O => v
  | S fuel' =>
      let p := (10 ^ (decimal_length v - k))%Z in
      let lo := (v / p * p)%Z in
      let hi := (lo + p)%Z in
      match rounds_to v lo, rounds_to v hi with
      | true, true =>
          if Z.ltb (v - lo) (hi - v) then lo
          else if Z.ltb (hi - v) (v - lo) then hi
          else if Z.even (v / p) then lo else hi
      | true, false => lo
      | false, true => hi
      | false, false => shortest_decimal fuel' v (k + 1)
      end
  end.

Fixpoint strip_zeros (fuel : nat) (c : Z) : Z :=
  match fuel with
  | O => c
  | S fuel' => if Z.eqb (c mod 10) 0 then strip_zeros fuel' (c / 10) else c
  end.

Definition number_to_string (n : Z) : string :=
  if Z.eqb n 0 then "0"
  else
    let sign := if Z.ltb n 0 then "-" else "" in
    let v := nearest_double (Z.abs n) in
    if Z.leb (2 ^ 1024) v then sign +:+ "Infinity"
    else
      let c := if Z.ltb v (2 ^ 53) then v
               else shortest_decimal (Z.to_nat (decimal_length v)) v 1 in
      if Z.ltb c (10 ^ 21) then sign +:+ pretty c
      else
        let digits := pretty (strip_zeros (Z.to_nat (decimal_length c)) c) in
        let mantissa := match digits with
                        | String d "" => String d ""
                        | String d rest => String d ("." +:+ rest)
                        | "" => ""
                        end in
        sign +:+ mantissa +:+ "e+" +:+ pretty (decimal_length c - 1)%Z.

(** ToString, which turns any value used between square brackets into a
    property key. *)
Fixpoint to_key (v : value) : string :=
  match v with
  | VUndef => "undefined"
  | VNull => "null"
  | VBool true => "true"
  | VBool false => "false"
  | VNum n => number_to_string n
  | VStr s => s
  | VArr items =>
      (fix join (l : list value) : string :=
         match l with
         | [] => ""
         | x :: rest =>
             let head := match x with
                         | VUndef | VNull => ""
                         | _ => to_key x
                         end in
             match rest with
             | [] => head
             | _ => head +:+ "," +:+ join rest
             end
         end) items
  | VObj _ => "[object Object]"
  | VFun f => fn_text f
  end.

(** Own properties of an object literal or of a decoded payload. *)
Fixpoint assoc_get {A : Type} (props : list (string * A)) (k : string)
  : option A :=
  match props with
  | [] => None
  | (k', v) :: rest => if String.eqb k' k then Some v else assoc_get rest k
  end.

Fixpoint assoc_set {A : Type} (props : list (string * A)) (k : string) (v : A)
  : list (string * A) :=
  match props with
  | [] => [(k, v)]
  | (k', v') :: rest =>
      if String.eqb k' k then (k, v) :: rest
      else (k', v') :: assoc_set rest k v
  end.

(** ** Plain objects *)

(** The members every plain object inherits from [Object.prototype]: those
    of the language standard and the accessors every browser adds. *)
Definition Object_prototype : list string :=
  ["constructor"; "toString"; "toLocaleString"; "valueOf"; "hasOwnProperty";
   "isPrototypeOf"; "propertyIsEnumerable"; "__defineGetter__";
   "__defineSetter__"; "__lookupGetter__"; "__lookupSetter__"; "__proto__"].

Definition is_inherited (k : string) : bool :=
  existsb (String.eqb k) Object_prototype.

(** What a read of [k] finds on the prototype: a built-in function, or the
    prototype itself under [__proto__]. *)
Definition inherited (k : string) : option value :=
  if is_inherited k then
    if String.eqb k "__proto__" then Some (VObj []) else Some (VFun (Builtin k))
  else None.

Arguments is_inherited k : simpl never.

(** [object[k]]: the own property, else the inherited one, else
    [undefined]. *)
Definition read (own : gmap string value) (k : string) : value :=
  match own !! k with
  | Some v => v
  | None => default VUndef (inherited k)
  end.

(** A command table as the decoder or the host hands it over: its own
    properties, name and index, in the order [for (i in ...)] visits them.
    A name has one entry; were there two, the first would give the
    index. *)
Inductive table :=
| Table (entries : list (string * Z)).

Definition entries (t : table) : list (string * Z) :=
  match t with Table l => l end.

#[global] Instance table_lookup : Lookup string Z table :=
  λ k t, assoc_get (entries t) k.

#[global] Instance table_empty : Empty table := Table [].

#[global] Instance table_singleton : SingletonM string Z table :=
  λ k i, Table [(k, i)].

(** Tables are written as [{[ name := index; ... ]}], properties in the
    order written: a new name goes in front of the ones to its right. *)
#[global] Instance table_insert : Insert string Z table :=
  λ k i t,
    match assoc_get (entries t) k with
    | Some _ => Table (assoc_set (entries t) k i)
    | None => Table ((k, i) :: entries t)
    end.

(** The names [for (i in table)] visits: the own properties, each once;
    nothing inherited is enumerable. *)
Definition own_keys (t : table) : list string :=
  remove_dups (entries t).*1.

(** What [send] puts in front of the payload: the index the table holds
    for the name, or the member the table inherits under that name. *)
Inductive sent_index :=
| Declared (commandIndex : Z)
| Inherited (name : string).

Coercion Declared : Z >-> sent_index.

(** [table[k]] when it is not [undefined]. *)
Definition table_read (t : table) (k : string) : option sent_index :=
  match t !! k with
  | Some commandIndex => Some (Declared commandIndex)
  | None => if is_inherited k then Some (Inherited k) else None
  end.

(** ** Collaborators and the trace *)

(** The messages the component hands to [this.log], by the line that
    builds them. *)
Inductive log_message :=
| ConnectingTo (url : value)                     (* line 25 *)
| ReceivedCommandList (commandCount : nat)       (* line 60 *)
| CannotDefineUnknown (commandName : value)      (* line 101 *)
| CannotDefineUndefined                          (* line 106 *)
| CannotSendUndefined (commandName : value)      (* line 122 *)
| ConnectedToServer                              (* line 224 *)
| ServerRejectedConnection                       (* line 250 *)
| DisconnectedFromServer                         (* line 252 *)
| ErrorWithConnection (reason : value).          (* line 263 *)

(** The second argument of [this.log]; [LogInfo] when it is omitted. *)
Inductive log_level := LogInfo | LogWarning | LogError.

(** Where a function handed in by calling code is called from. *)
Inductive call_site :=
| AsStartCallback      (* line 64 *)
| AsHandler            (* line 237 *)
| AsContinuation.      (* line 212 *)

(** One call into a collaborator. *)
Inductive event :=
| Log (level : log_level) (message : log_message)
| Emit (eventName : value) (data : value)
| NetIoClient (url : value)                      (* new NetIo.Client(url) *)
| NetIoOn (eventName : string)                   (* this._io.on(name, listener) *)
| NetIoSend (commandIndex : sent_index) (data : value)
                                                 (* this._io.send([index, data]) *)
| Called (site : call_site) (text : string) (args : list value).

(** ** The component and its surroundings *)

(** The properties of the component object.  Lines 6 to 8 give the first
    three; [_startCallback], [_url] and [_io] are created by [start] and
    read as [undefined] before that.  The last four, [_entity],
    [_networkCommands], [_networkCommandsIndex] and
    [_networkCommandsLookup], are created by the host component this object
    is mixed into; the file only uses them, so they are taken as given:
    the handler table (name to handler) and the two directions of the
    command table (name to index, index to name).  The reverse table is
    read under the number a frame carries, or under [undefined] when it
    carries none, and inherits nothing under either. *)
Record component := {
  _initDone : bool;
  _idCounter : Z;
  _requests : gmap string value;
  _startCallback : value;
  _url : value;
  _io : option value;
  _entity : value;
  _networkCommands : gmap string value;
  _networkCommandsIndex : gmap Z string;
  _networkCommandsLookup : table
}.

(** The component, the global scope that free identifiers resolve in, and
    the calls made to collaborators so far (oldest first). *)
Record world := {
  self : component;
  scope : gmap string value;
  trace : list event
}.

Definition with_self (f : component -> component) (w : world) : world :=
  {| self := f (self w); scope := scope w; trace := trace w |}.

Definition set_initDone (b : bool) (c : component) : component :=
  {| _initDone := b; _idCounter := _idCounter c; _requests := _requests c;
     _startCallback := _startCallback c; _url := _url c; _io := _io c;
     _entity := _entity c; _networkCommands := _networkCommands c;
     _networkCommandsIndex := _networkCommandsIndex c;
     _networkCommandsLookup := _networkCommandsLookup c |}.

Definition set_idCounter (n : Z) (c : component) : component :=
  {| _initDone := _initDone c; _idCounter := n; _requests := _requests c;
     _startCallback := _startCallback c; _url := _url c; _io := _io c;
     _entity := _entity c; _networkCommands := _networkCommands c;
     _networkCommandsIndex := _networkCommandsIndex c;
     _networkCommandsLookup := _networkCommandsLookup c |}.

Definition set_requests (m : gmap string value) (c : component) : component :=
  {| _initDone := _initDone c; _idCounter := _idCounter c; _requests := m;
     _startCallback := _startCallback c; _url := _url c; _io := _io c;
     _entity := _entity c; _networkCommands := _networkCommands c;
     _networkCommandsIndex := _networkCommandsIndex c;
     _networkCommandsLookup := _networkCommandsLookup c |}.

Definition set_startCallback (v : value) (c : component) : component :=
  {| _initDone := _initDone c; _idCounter := _idCounter c;
     _requests := _requests c;
     _startCallback := v; _url := _url c; _io := _io c;
     _entity := _entity c; _networkCommands := _networkCommands c;
     _networkCommandsIndex := _networkCommandsIndex c;
     _networkCommandsLookup := _networkCommandsLookup c |}.

Definition set_url (v : value) (c : component) : component :=
  {| _initDone := _initDone c; _idCounter := _idCounter c;
     _requests := _requests c;
     _startCallback := _startCallback c; _url := v; _io := _io c;
     _entity := _entity c; _networkCommands := _networkCommands c;
     _networkCommandsIndex := _networkCommandsIndex c;
     _networkCommandsLookup := _networkCommandsLookup c |}.

Definition set_io (o : option value) (c : component) : component :=
  {| _initDone := _initDone c; _idCounter := _idCounter c;
     _requests := _requests c;
     _startCallback := _startCallback c; _url := _url c; _io := o;
     _entity := _entity c; _networkCommands := _networkCommands c;
     _networkCommandsIndex := _networkCommandsIndex c;
     _networkCommandsLookup := _networkCommandsLookup c |}.

Definition set_networkCommands (m : gmap string value) (c : component)
  : component :=
  {| _initDone := _initDone c; _idCounter := _idCounter c;
     _requests := _requests c;
     _startCallback := _startCallback c; _url := _url c; _io := _io c;
     _entity := _entity c; _networkCommands := m;
     _networkCommandsIndex := _networkCommandsIndex c;
     _networkCommandsLookup := _networkCommandsLookup c |}.

Definition set_networkCommandsIndex (m : gmap Z string) (c : component)
  : component :=
  {| _initDone := _initDone c; _idCounter := _idCounter c;
     _requests := _requests c;
     _startCallback := _startCallback c; _url := _url c; _io := _io c;
     _entity := _entity c; _networkCommands := _networkCommands c;
     _networkCommandsIndex := m;
     _networkCommandsLookup := _networkCommandsLookup c |}.

Definition set_networkCommandsLookup (m : table) (c : component)
  : component :=
  {| _initDone := _initDone c; _idCounter := _idCounter c;
     _requests := _requests c;
     _startCallback := _startCallback c; _url := _url c; _io := _io c;
     _entity := _entity c; _networkCommands := _networkCommands c;
     _networkCommandsIndex := _networkCommandsIndex c;
     _networkCommandsLookup := m |}.

(** ** Computations *)

Inductive js_error :=
| TypeError
| ReferenceError (identifier : string).

(** How a call ends: it returns, it throws, or it [Escapes]: it goes on
    inside a value that calling code put where the file expects something
    else (one of the component's methods passed as a callback, a handler
    bound under the name [_requests] or [emit]) and is not followed
    further.  A call of a built-in function is not followed either. *)
Inductive completion (A : Type) :=
| Normal (a : A)
| Throw (e : js_error)
| Escapes.

Arguments Normal {A} a.
Arguments Throw {A} e.
Arguments Escapes {A}.

(** Property writes made before a throw stay made, so the world is
    returned with every completion. *)
Definition Js (A : Type) : Type := world -> completion A * world.

#[global] Instance Js_ret : MRet Js := λ A a w, (Normal a, w).

#[global] Instance Js_bind : MBind Js := λ A B k m w,
  match m w with
  | (Normal a, w') => k a w'
  | (Throw e, w') => (Throw e, w')
  | (Escapes, w') => (Escapes, w')
  end.

Definition throw {A : Type} (e : js_error) : Js A := λ w, (Throw e, w).
Definition escape {A : Type} : Js A := λ w, (Escapes, w).
Definition this : Js component := λ w, (Normal (self w), w).
Definition assign (f : component -> component) : Js unit :=
  λ w, (Normal tt, with_self f w).
Definition skip : Js unit := mret tt.
Definition perform (e : event) : Js unit :=
  λ w, (Normal tt,
        {| self := self w; scope := scope w; trace := trace w ++ [e] |}).

(** The world a computation leaves behind, and how it ended. *)
Definition exec {A : Type} (m : Js A) (w : world) : world := snd (m w).
Definition outcome {A : Type} (m : Js A) (w : world) : completion A := fst (m w).

(** Reading a free identifier: a [ReferenceError] when nothing in the
    global scope bears the name. *)
Definition resolve (identifier : string) : Js value :=
  λ w, match scope w !! identifier with
       | Some v => (Normal v, w)
       | None => (Throw (ReferenceError identifier), w)
       end.

(** Assigning to an undeclared identifier ([id = ...], [req = ...]): the
    file runs in sloppy mode, so the global is created. *)
Definition assign_global (identifier : string) (v : value) : Js unit :=
  λ w, (Normal tt,
        {| self := self w; scope := <[identifier := v]> (scope w);
           trace := trace w |}).

(** [typeof(identifier) !== 'undefined'], which never throws. *)
Definition is_defined (identifier : string) (w : world) : bool :=
  match scope w !! identifier with
  | Some v => negb (is_undefined v)
  | None => false
  end.

Definition typeof_defined (identifier : string) : Js bool :=
  λ w, (Normal (is_defined identifier w), w).

(** [v.k], for the names the file reads this way ([id], [cmd], [data],
    [callback], [commandName], [reason]), none of them built in: a
    [TypeError] on [undefined] and [null]. *)
Definition get_prop (v : value) (k : string) : Js value :=
  match v with
  | VUndef | VNull => throw TypeError
  | VObj props => mret (default VUndef (assoc_get props k))
  | _ => mret VUndef
  end.

(** The value [v] holds after [v.k = x]: a write to a primitive is
    dropped; one to an array or a function, which the values here give no
    named properties, is not followed. *)
Definition set_prop (v : value) (k : string) (x : value) : Js value :=
  match v with
  | VUndef | VNull => throw TypeError
  | VObj props => mret (VObj (assoc_set props k x))
  | VArr _ | VFun _ => escape
  | _ => mret v
  end.

(** ** Public interface *)

Definition log (message : log_message) (level : log_level) : Js unit :=
  perform (Log level message).

(** [this._io.send([commandIndex, data])]; a [TypeError] while [_io] is
    still [undefined]. *)
Definition io_send (commandIndex : sent_index) (data : value) : Js unit :=
  c ← this;
  match _io c with
  | Some _ => perform (NetIoSend commandIndex data)
  | None => throw TypeError
  end.

(** Lines 16 to 83.  The four listeners registered at lines 31 to 81 are
    [on_connect], [on_message], [on_disconnect] and [on_error] below. *)
Definition start (url callback : value) : Js unit :=
  assign (set_startCallback callback);;
  (if is_undefined url then skip else assign (set_url url));;
  c ← this;
  log (ConnectingTo (_url c)) LogInfo;;
  has_websocket ← typeof_defined "WebSocket";
  if (has_websocket : bool) then
    perform (NetIoClient url);;
    assign (set_io (Some url));;
    perform (NetIoOn "connect");;
    perform (NetIoOn "message");;
    perform (NetIoOn "disconnect");;
    perform (NetIoOn "error")
  else skip.

(** Lines 95 to 108.  The result is [this._entity], or [undefined] when an
    argument is missing.  Line 98 asks whether the table, or what it
    inherits, holds anything under the name. *)
Definition define (commandName callback : value) : Js value :=
  if negb (is_undefined commandName) && negb (is_undefined callback) then
    c ← this;
    match table_read (_networkCommandsLookup c) (to_key commandName) with
    | Some _ =>
        assign (set_networkCommands
                  (<[to_key commandName := callback]> (_networkCommands c)))
    | None => log (CannotDefineUnknown commandName) LogError
    end;;
    mret (_entity c)
  else
    log CannotDefineUndefined LogError;;
    mret VUndef.

(** Lines 116 to 124.  Whatever line 117 reads under the name, own or
    inherited, is sent unless it is [undefined]. *)
Definition send (commandName data : value) : Js unit :=
  c ← this;
  match table_read (_networkCommandsLookup c) (to_key commandName) with
  | Some commandIndex => io_send commandIndex data
  | None => log (CannotSendUndefined commandName) LogError
  end.

(** What the runtime supplies to one call of [request]: the hexadecimal
    text line 188 produces from the counter and its four [Math.random()]
    draws, and the reading of the clock at line 140. *)
Record ambient := {
  toString16 : Z -> string;
  getTime : Z
}.

(** Lines 186 to 189. *)
Definition newIdHex (env : ambient) : Js string :=
  c ← this;
  assign (set_idCounter (_idCounter c + 1));;
  mret (toString16 env (_idCounter c + 1)).

(** Lines 133 to 155. *)
Definition request (env : ambient) (commandName data callback : value)
  : Js unit :=
  id ← newIdHex env;
  let req := VObj [("id", VStr id); ("cmd", commandName); ("data", data);
                   ("callback", callback);
                   ("timestamp", VNum (getTime env))] in
  c ← this;
  assign (set_requests (<[id := req]> (_requests c)));;
  send (VStr "_igeRequest")
       (VObj [("id", VStr id); ("cmd", commandName); ("data", data)]).

(** Lines 162 to 180. *)
Definition response (requestId data : value) : Js unit :=
  c ← this;
  let req := read (_requests c) (to_key requestId) in
  if truthy req then
    commandName ← get_prop req "commandName";
    send (VStr "_igeResponse")
         (VObj [("id", requestId); ("cmd", commandName); ("data", data)]);;
    c' ← this;
    assign (set_requests (delete (to_key requestId) (_requests c')))
  else skip.

(** ** Request tracker handlers *)

(** What [this] is inside [_onRequest] and [_onResponse]: the component
    when they are called as its methods, the handler table when the
    dispatcher calls them as [this._networkCommands[commandName](...)]
    (line 237). *)
Inductive receiver :=
| ThisComponent
| ThisHandlerTable.

(** [this._requests] seen from the handler table is whatever is bound
    under the command name [_requests]: nothing, as a rule, and indexing
    [undefined] is a [TypeError]. *)
Definition handler_table_requests {A : Type} : Js A :=
  c ← this;
  match _networkCommands c !! "_requests" with
  | None => throw TypeError
  | Some _ => escape
  end.

(** [this._requests[key]] *)
Definition requests_get (r : receiver) (key : string) : Js value :=
  match r with
  | ThisComponent => c ← this; mret (read (_requests c) key)
  | ThisHandlerTable => handler_table_requests
  end.

(** [this._requests[key] = v] *)
Definition requests_set (r : receiver) (key : string) (v : value) : Js unit :=
  match r with
  | ThisComponent =>
      c ← this; assign (set_requests (<[key := v]> (_requests c)))
  | ThisHandlerTable => handler_table_requests
  end.

(** [delete this._requests[key]] *)
Definition requests_delete (r : receiver) (key : string) : Js unit :=
  match r with
  | ThisComponent =>
      c ← this; assign (set_requests (delete key (_requests c)))
  | ThisHandlerTable => handler_table_requests
  end.

(** [this.emit(eventName, data)]; the handler table has no [emit] unless a
    command of that name is bound. *)
Definition emit (r : receiver) (eventName data : value) : Js unit :=
  match r with
  | ThisComponent => perform (Emit eventName data)
  | ThisHandlerTable =>
      c ← this;
      match _networkCommands c !! "emit" with
      | None => throw TypeError
      | Some _ => escape
      end
  end.

(** Calling a function value that calling code handed in; a call of one
    of the component's methods or of a built-in is not followed. *)
Definition call (site : call_site) (f : value) (args : list value) : Js unit :=
  match f with
  | VFun (Collaborator text) => perform (Called site text args)
  | VFun _ => escape
  | _ => throw TypeError
  end.

(** Lines 191 to 199.  In [data.socket = socket] the free identifier
    [socket] is read before the write looks at its target. *)
Definition _onRequest (r : receiver) (data : value) : Js unit :=
  socket ← resolve "socket";
  data ← set_prop data "socket" socket;
  id ← get_prop data "id";
  requests_set r (to_key id) data;;
  cmd ← get_prop data "cmd";
  payload ← get_prop data "data";
  emit r cmd (VArr [id; payload]).

(** Lines 201 to 217.  [id] and [req] are assigned without a declaration;
    [commandName] is read without one, after [req.callback] and before the
    call. *)
Definition _onResponse (r : receiver) (data : value) : Js unit :=
  id ← get_prop data "id";
  assign_global "id" id;;
  req ← requests_get r (to_key id);
  assign_global "req" req;;
  if truthy req then
    callback ← get_prop req "callback";
    commandName ← resolve "commandName";
    payload ← get_prop data "data";
    call AsContinuation callback [commandName; payload];;
    requests_delete r (to_key id)
  else skip.

(** ** Frames, dispatch and the socket listeners *)

(** What the socket delivers, after decoding, in the two shapes of the
    wire format: the handshake frame [{cmd: 'init', ncmds: {name: index,
    ...}}] or an ordinary frame [[commandIndex, payload]]. *)
Inductive frame :=
| InitFrame (ncmds : table)
| DataFrame (commandIndex : Z) (payload : value).

(** [data[0]] and [data[1]]; the handshake frame is an object without
    those properties. *)
Definition frame_index (data : frame) : option Z :=
  match data with
  | InitFrame _ => None
  | DataFrame commandIndex _ => Some commandIndex
  end.

Definition frame_payload (data : frame) : value :=
  match data with
  | InitFrame _ => VUndef
  | DataFrame _ payload => payload
  end.

(** A command name read from the reverse table, [None] for [undefined]. *)
Definition name_value (commandName : option string) : value :=
  match commandName with
  | Some name => VStr name
  | None => VUndef
  end.

(** [this._networkCommands[commandName](data[1])]: the handler runs with
    the handler table as [this]. *)
Definition apply_handler (handler data : value) : Js unit :=
  match handler with
  | VFun Method_onRequest => _onRequest ThisHandlerTable data
  | VFun Method_onResponse => _onResponse ThisHandlerTable data
  | _ => call AsHandler handler [data]
  end.

(** Lines 233 to 241. *)
Definition _onMessageFromServer (data : frame) : Js unit :=
  c ← this;
  let commandName := frame_index data ≫= λ i, _networkCommandsIndex c !! i in
  let handler :=
    read (_networkCommands c) (to_key (name_value commandName)) in
  (if truthy handler then apply_handler handler (frame_payload data)
   else skip);;
  emit ThisComponent (name_value commandName) (frame_payload data).

(** Lines 223 to 226. *)
Definition _onConnectToServer : Js unit :=
  log ConnectedToServer LogInfo;;
  emit ThisComponent (VStr "connected") VUndef.

(** Lines 248 to 255. *)
Definition _onDisconnectFromServer (data : value) : Js unit :=
  match data with
  | VStr "booted" => log ServerRejectedConnection LogWarning
  | _ => log DisconnectedFromServer LogInfo
  end;;
  emit ThisComponent (VStr "disconnected") VUndef.

(** Lines 262 to 264. *)
Definition _onError (data : value) : Js unit :=
  reason ← get_prop data "reason";
  log (ErrorWithConnection reason) LogError.

(** Line 50, [table.hasOwnProperty(i)], and the read of line 51.  The
    call goes to whatever the table holds under the name [hasOwnProperty]:
    the inherited built-in, unless the table declares a command of that
    name, whose index is then called, a [TypeError]. *)
Definition own_entry (t : table) (i : string) : Js (option Z) :=
  match t !! "hasOwnProperty" with
  | Some _ => throw TypeError
  | None => mret (t !! i)
  end.

(** Lines 49 to 54: the reverse lookup gains one entry per own property of
    the table just received, in the order the loop visits them; the result
    is [commandCount]. *)
Fixpoint fill_reverse_lookup (t : table) (keys : list string)
  (commandCount : nat) : Js nat :=
  match keys with
  | [] => mret commandCount
  | i :: rest =>
      entry ← own_entry t i;
      match entry with
      | Some commandIndex =>
          c ← this;
          assign (set_networkCommandsIndex
                    (<[commandIndex := i]> (_networkCommandsIndex c)));;
          fill_reverse_lookup t rest (S commandCount)
      | None => fill_reverse_lookup t rest commandCount
      end
  end.

(** Lines 37 to 68: the handshake, taken once.  An exception leaves the
    listener, so that line 70 is not reached. *)
Definition handshake (data : frame) : Js unit :=
  c ← this;
  if negb (_initDone c) then
    match data with
    | InitFrame ncmds =>
        assign (set_initDone true);;
        assign (set_networkCommandsLookup ncmds);;
        commandCount ← fill_reverse_lookup ncmds (own_keys ncmds) 0;
        define (VStr "_igeRequest") (VFun Method_onRequest);;
        define (VStr "_igeResponse") (VFun Method_onResponse);;
        log (ReceivedCommandList commandCount) LogInfo;;
        c' ← this;
        if is_function (_startCallback c') then
          call AsStartCallback (_startCallback c') [];;
          assign (set_startCallback VUndef)
        else skip
    | DataFrame _ _ => skip
    end
  else skip.

(** The listeners of lines 31 to 81. *)
Definition on_connect : Js unit := _onConnectToServer.

Definition on_message (data : frame) : Js unit :=
  handshake data;;
  _onMessageFromServer data.

Definition on_disconnect (data : value) : Js unit :=
  _onDisconnectFromServer data.

Definition on_error (data : value) : Js unit := _onError data.

(** ** Sessions *)

(** One thing that happens to the component: a call from calling code or
    an event from the socket. *)
Inductive action :=
| CallStart (url callback : value)
| CallDefine (commandName callback : value)
| CallSend (commandName data : value)
| CallRequest (env : ambient) (commandName data callback : value)
| CallResponse (requestId data : value)
| SocketConnect
| SocketMessage (data : frame)
| SocketDisconnect (data : value)
| SocketError (data : value).

(** Each action runs to its completion in a turn of its own; an exception
    ends the turn and leaves the writes made so far. *)
Definition step (a : action) (w : world) : world :=
  match a with
  | CallStart url callback => exec (start url callback) w
  | CallDefine commandName callback => exec (define commandName callback) w
  | CallSend commandName data => exec (send commandName data) w
  | CallRequest env commandName data callback =>
      exec (request env commandName data callback) w
  | CallResponse requestId data => exec (response requestId data) w
  | SocketConnect => exec on_connect w
  | SocketMessage data => exec (on_message data) w
  | SocketDisconnect data => exec (on_disconnect data) w
  | SocketError data => exec (on_error data) w
  end.

Definition run (actions : list action) (w : world) : world :=
  fold_left (λ w a, step a w) actions w.

(** The component as the object literal of lines 5 to 8 leaves it, in a
    host that has created empty tables, with nothing but [WebSocket] in the
    global scope and no call made yet. *)
Definition fresh_component : component :=
  {| _initDone := false; _idCounter := 0; _requests := ∅;
     _startCallback := VUndef; _url := VUndef; _io := None;
     _entity := VObj []; _networkCommands := ∅;
     _networkCommandsIndex := ∅; _networkCommandsLookup := ∅ |}.

Definition browser : world :=
  {| self := fresh_component;
     scope := {[ "WebSocket" := VFun (Collaborator "WebSocket") ]};
     trace := [] |}.

(** ** Sample sessions *)

Definition sample_table : table :=
  {[ "move" := 1; "chat" := 2; "_igeRequest" := 3; "_igeResponse" := 4 ]}.

Definition sample_env : ambient :=
  {| toString16 := λ counter, "a41f" +:+ pretty counter;
     getTime := 1700000000000 |}.

(** A client that has called [start] and waits for the handshake. *)
Definition connecting : world :=
  step (CallStart (VStr "ws://play.example:2000")
          (VFun (Collaborator "onReady"))) browser.

(** A client that has connected and completed the handshake. *)
Definition playing : world :=
  run [CallStart (VStr "ws://play.example:2000")
         (VFun (Collaborator "onReady"));
       SocketConnect;
       SocketMessage (InitFrame sample_table)] browser.

(** The same client with one request of its own outstanding, under the id
    [a41f1]. *)
Definition awaiting : world :=
  step (CallRequest sample_env (VStr "chat") (VStr "hi")
          (VFun (Collaborator "onReply"))) playing.

(** A page without [WebSocket]. *)
Definition offline : world :=
  {| self := fresh_component; scope := ∅; trace := [] |}.

Definition with_global (identifier : string) (v : value) (w : world) : world :=
  {| self := self w; scope := <[identifier := v]> (scope w);
     trace := trace w |}.

(** A request from the server, and one whose id is that of the client's
    own outstanding request. *)
Definition inbound : value :=
  VObj [("id", VStr "7b20"); ("cmd", VStr "chat"); ("data", VStr "hi")].

Definition clashing : value :=
  VObj [("id", VStr "a41f1"); ("cmd", VStr "move"); ("data", VNum 7)].

(** The reply to the client's own request. *)
Definition reply : value :=
  VObj [("id", VStr "a41f1"); ("cmd", VStr "chat"); ("data", VStr "ok")].

(** The client's own request as [request] stored it. *)
Definition outgoing : value :=
  VObj [("id", VStr "a41f1"); ("cmd", VStr "chat"); ("data", VStr "hi");
        ("callback", VFun (Collaborator "onReply"));
        ("timestamp", VNum 1700000000000)].

(** A page that does declare a global [socket], after [_onRequest] has
    run as a method of the component on the request [inbound]. *)
Definition received : world :=
  exec (_onRequest ThisComponent inbound)
       (with_global "socket" (VObj []) playing).

(** * Vocabulary of the properties *)

(** ** Traces *)

(** The events a computation added to the trace. *)
Definition events_since (w w' : world) : list event :=
  drop (length (trace w)) (trace w').

Definition is_call (e : event) : bool :=
  match e with Called _ _ _ => true | _ => false end.

Definition is_emit (e : event) : bool :=
  match e with Emit _ _ => true | _ => false end.

Definition is_log (e : event) : bool :=
  match e with Log _ _ => true | _ => false end.

Definition is_socket_use (e : event) : bool :=
  match e with
  | NetIoClient _ | NetIoOn _ | NetIoSend _ _ => true
  | _ => false
  end.

(** The calls of the start callback in a trace, oldest first. *)
Definition is_start_call (e : event) : bool :=
  match e with
  | Called AsStartCallback _ _ => true
  | _ => false
  end.

Definition start_calls (events : list event) : list event :=
  List.filter is_start_call events.

(** ** Handshake state *)

(** [w'] differs from [w] in nothing the handshake depends on or
    decides. *)
Record handshake_untouched (w w' : world) : Prop := {
  same_initDone : _initDone (self w') = _initDone (self w);
  same_startCallback : _startCallback (self w') = _startCallback (self w);
  same_lookup :
    _networkCommandsLookup (self w') = _networkCommandsLookup (self w);
  same_io : _io (self w') = _io (self w);
  same_start_calls : start_calls (trace w') = start_calls (trace w)
}.

(** A computation that leaves the handshake state alone, however it
    ends. *)
Definition keeps {A : Type} (m : Js A) : Prop :=
  forall w, handshake_untouched w (exec m w).

(** A property write that leaves the handshake state alone. *)
Definition harmless (f : component -> component) : Prop :=
  forall c,
    _initDone (f c) = _initDone c /\
    _startCallback (f c) = _startCallback c /\
    _networkCommandsLookup (f c) = _networkCommandsLookup c /\
    _io (f c) = _io c.

(** Actions other than [start] and the arrival of a handshake frame. *)
Definition quiet (a : action) : bool :=
  match a with
  | CallStart _ _ => false
  | SocketMessage (InitFrame _) => false
  | _ => true
  end.

(** Once the handshake is done, nothing undoes it, replaces the table or
    calls the start callback. *)
Definition settled (ncmds : table) (calls : list event) (w : world)
  : Prop :=
  _initDone (self w) = true /\
  _networkCommandsLookup (self w) = ncmds /\
  start_calls (trace w) = calls.

(** ** Four claims as the spec words them *)

(** C3 as the spec words it: the callback passed to [start] is called
    exactly once, by the handshake frame that follows. *)
Definition ready_fires_once (url : value) (onReady : string) (ncmds : table)
  (w : world) : Prop :=
  let w' := run [CallStart url (VFun (Collaborator onReady));
                 SocketMessage (InitFrame ncmds)] w in
  start_calls (events_since w w') = [Called AsStartCallback onReady []].

(** C10 as the spec words it: the id [request] stores the entry under is
    fresh, in use by no entry of the map when [request] is called. *)
Definition stores_under_fresh_id (env : ambient)
  (commandName data callback : value) (w : world) : Prop :=
  let id := toString16 env (_idCounter (self w) + 1) in
  _requests (self w) !! id = None /\
  is_Some (_requests (self (exec (request env commandName data callback) w))
             !! id).

(** C8 as the spec words it: without [WebSocket], [start] neither touches
    the socket library nor calls anything, and leaves the component as it
    was. *)
Definition start_is_noop (url callback : value) (w : world) : Prop :=
  let w' := exec (start url callback) w in
  existsb is_socket_use (events_since w w') = false /\
  existsb is_call (events_since w w') = false /\
  self w' = self w.

(** C7 as the spec words it: such a frame is dropped (no error, no
    handler, no event) and a diagnostic is logged. *)
Definition unknown_index_dropped (commandIndex : Z) (payload : value)
  (w : world) : Prop :=
  let m := _onMessageFromServer (DataFrame commandIndex payload) in
  outcome m w = Normal tt /\
  existsb is_call (events_since w (exec m w)) = false /\
  existsb is_emit (events_since w (exec m w)) = false /\
  existsb is_log (events_since w (exec m w)) = true.

(** ** Footprints *)

(** The properties of the component, by name. *)
Inductive field :=
| F_initDone
| F_idCounter
| F_requests
| F_startCallback
| F_url
| F_io
| F_entity
| F_networkCommands
| F_networkCommandsIndex
| F_networkCommandsLookup.

(** The property [f] holds in [c'] what it held in [c]. *)
Definition unchanged (f : field) (c c' : component) : Prop :=
  match f with
  | F_initDone => _initDone c' = _initDone c
  | F_idCounter => _idCounter c' = _idCounter c
  | F_requests => _requests c' = _requests c
  | F_startCallback => _startCallback c' = _startCallback c
  | F_url => _url c' = _url c
  | F_io => _io c' = _io c
  | F_entity => _entity c' = _entity c
  | F_networkCommands => _networkCommands c' = _networkCommands c
  | F_networkCommandsIndex =>
      _networkCommandsIndex c' = _networkCommandsIndex c
  | F_networkCommandsLookup =>
      _networkCommandsLookup c' = _networkCommandsLookup c
  end.

(** From [w] to [w'] no property outside [fields] has changed. *)
Definition within (fields : list field) (w w' : world) : Prop :=
  forall f, f ∉ fields -> unchanged f (self w) (self w').

(** A computation that writes no property outside [fields], however it
    ends. *)
Definition touches {A : Type} (fields : list field) (m : Js A) : Prop :=
  forall w, within fields w (exec m w).

(** The properties an action may write.  A handshake frame writes only
    while the handshake has not been done. *)
Definition footprint (a : action) (w : world) : list field :=
  match a with
  | CallStart _ _ => [F_startCallback; F_url; F_io]
  | CallDefine _ _ => [F_networkCommands]
  | CallRequest _ _ _ _ => [F_idCounter; F_requests]
  | CallResponse _ _ => [F_requests]
  | SocketMessage (InitFrame _) =>
      if _initDone (self w) then []
      else [F_initDone; F_startCallback; F_networkCommands;
            F_networkCommandsIndex; F_networkCommandsLookup]
  | _ => []
  end.

Definition is_socket_event (a : action) : bool :=
  match a with
  | SocketConnect | SocketMessage _ | SocketDisconnect _ | SocketError _ =>
      true
  | _ => false
  end.

Definition is_request (a : action) : bool :=
  match a with
  | CallRequest _ _ _ _ => true
  | _ => false
  end.

(** How many times a session calls [request]. *)
Definition requests_issued (actions : list action) : nat :=
  length (List.filter is_request actions).

(** ** Command tables *)

(** No two commands of the table share an index. *)
Definition one_name_per_index (ncmds : table) : Prop :=
  forall name name' commandIndex,
    ncmds !! name = Some commandIndex ->
    ncmds !! name' = Some commandIndex ->
    name = name'.

(** Every name a handler is bound under is one that line 98 finds in the
    table: a command of the table, or a member the table inherits. *)
Definition bound_are_declared (c : component) : Prop :=
  forall name,
    is_Some (_networkCommands c !! name) ->
    is_Some (table_read (_networkCommandsLookup c) name).

(** The handler table after lines 57 and 58, for a handshake with table
    [ncmds]. *)
Definition with_tracker_handlers (ncmds : table)
  (handlers : gmap string value) : gmap string value :=
  let handlers :=
    match ncmds !! "_igeRequest" with
    | Some _ => <["_igeRequest" := VFun Method_onRequest]> handlers
    | None => handlers
    end in
  match ncmds !! "_igeResponse" with
  | Some _ => <["_igeResponse" := VFun Method_onResponse]> handlers
  | None => handlers
  end.

(** ** Kinds of actions and events *)

Definition is_response (a : action) : bool :=
  match a with
  | CallResponse _ _ => true
  | _ => false
  end.

Definition is_booted (data : value) : bool :=
  match data with
  | VStr reason => String.eqb reason "booted"
  | _ => false
  end.

(** The events an action may add to the trace. *)
Definition may_add (a : action) (e : event) : bool :=
  match a, e with
  | CallStart _ _, (Log _ _ | NetIoClient _ | NetIoOn _) => true
  | CallDefine _ _, Log _ _ => true
  | (CallSend _ _ | CallRequest _ _ _ _ | CallResponse _ _),
    (Log _ _ | NetIoSend _ _) => true
  | (SocketConnect | SocketDisconnect _), (Log _ _ | Emit _ _) => true
  | SocketError _, Log _ _ => true
  | SocketMessage _, (Log _ _ | Emit _ _ | Called _ _ _) => true
  | _, _ => false
  end.

(** ** Session invariants *)

(** A computation that only appends to the trace, and only events that
    satisfy [P], however it ends. *)
Definition adds {A : Type} (P : event -> Prop) (m : Js A) : Prop :=
  forall w, exists events,
    trace (exec m w) = (trace w ++ events)%list /\ Forall P events.

(** The handshake state in which every bound name is declared: before the
    handshake the command table is still empty, and only inherited names
    are found in it. *)
Definition handlers_in_step (w : world) : Prop :=
  bound_are_declared (self w) /\
  (_initDone (self w) = false -> _networkCommandsLookup (self w) = ∅).

(** A frame handed to the socket carries an index of the table [t], or in
    its place a member every table inherits. *)
Definition declared_send (t : table) (e : event) : Prop :=
  match e with
  | NetIoSend (Declared commandIndex) _ =>
      exists name, t !! name = Some commandIndex
  | NetIoSend (Inherited name) _ => is_inherited name = true
  | _ => True
  end.

(** The handshake state in which every frame sent so far carries a
    declared index or an inherited member: before the handshake the table
    is empty and no index has been sent. *)
Definition sends_in_step (w : world) : Prop :=
  if _initDone (self w)
  then Forall (declared_send (_networkCommandsLookup (self w))) (trace w)
  else _networkCommandsLookup (self w) = ∅ /\
       Forall (declared_send ∅) (trace w).

(** ** The loop of the handshake *)

(** The reverse table after the loop of lines 49 to 54 has visited
    [keys], and the number of entries it has counted. *)
Definition reverse_entries (t : table) (keys : list string)
  (index : gmap Z string) : gmap Z string :=
  fold_left (λ acc i, match t !! i with
                      | Some commandIndex => <[commandIndex := i]> acc
                      | None => acc
                      end) keys index.

Definition counted (t : table) (keys : list string) : nat :=
  length (List.filter (λ i, match t !! i with
                            | Some _ => true
                            | None => false
                            end) keys).

(** ** Ids a session touches *)

(** Whether a session, begun with the counter at [counter], calls
    [request] so that it generates the id [id], or calls [response] with
    it. *)
Fixpoint disturbs (id : string) (counter : Z) (actions : list action) : bool :=
  match actions with
  | [] => false
  | CallRequest env _ _ _ :: rest =>
      String.eqb (toString16 env (counter + 1)) id ||
      disturbs id (counter + 1) rest
  | CallResponse requestId _ :: rest =>
      String.eqb (to_key requestId) id || disturbs id counter rest
  | _ :: rest => disturbs id counter rest
  end.

(** ** More sample sessions *)

(** A runtime whose id text comes out the same twice. *)
Definition stuck_env : ambient :=
  {| toString16 := λ _, "58d15e176f3"; getTime := 1700000000000 |}.

(** The client of [playing] with one request issued under that runtime. *)
Definition repeating : world :=
  step (CallRequest stuck_env (VStr "chat") (VStr "first")
          (VFun (Collaborator "onFirst"))) playing.

(** A client whose server declares no tracker commands, with a request
    of its own stored all the same. *)
Definition untracked : world :=
  run [CallStart (VStr "ws://play.example:2000") VUndef;
       SocketMessage (InitFrame {[ "chat" := 2 ]});
       CallRequest sample_env (VStr "chat") (VStr "hi")
         (VFun (Collaborator "onReply"))] browser.

(** * Properties *)

(** ** Running computations *)

Lemma exec_bind {A B : Type} (m : Js A) (k : A -> Js B) (w : world) :
  exec (m ≫= k) w =
  match m w with
  | (Normal a, w') => exec (k a) w'
  | (_, w') => w'
  end.
Proof.
  unfold exec, mbind, Js_bind.
  destruct (m w) as [[a | e |] w']; reflexivity.
Qed.

(** ** What only the handshake and [start] touch *)

Lemma handshake_untouched_refl (w : world) : handshake_untouched w w.
Proof. split; reflexivity. Qed.

Lemma handshake_untouched_trans (w1 w2 w3 : world) :
  handshake_untouched w1 w2 -> handshake_untouched w2 w3 ->
  handshake_untouched w1 w3.
Proof.
  intros [] []; split; etransitivity; eassumption.
Qed.

Create HintDb keeps.

Lemma keeps_ret {A : Type} (a : A) : keeps (mret a : Js A).
Proof. intros w. apply handshake_untouched_refl. Qed.

Lemma keeps_skip : keeps skip.
Proof. apply keeps_ret. Qed.

Lemma keeps_throw {A : Type} (e : js_error) : keeps (throw e : Js A).
Proof. intros w. apply handshake_untouched_refl. Qed.

Lemma keeps_escape {A : Type} : keeps (escape : Js A).
Proof. intros w. apply handshake_untouched_refl. Qed.

Lemma keeps_this : keeps this.
Proof. intros w. apply handshake_untouched_refl. Qed.

Lemma keeps_bind {A B : Type} (m : Js A) (k : A -> Js B) :
  keeps m -> (forall a, keeps (k a)) -> keeps (m ≫= k).
Proof.
  intros Hm Hk w. rewrite exec_bind.
  specialize (Hm w). unfold exec in Hm.
  destruct (m w) as [[a | e |] w']; simpl in Hm; try assumption.
  eapply handshake_untouched_trans; [eassumption | apply Hk].
Qed.

Lemma keeps_assign (f : component -> component) :
  harmless f -> keeps (assign f).
Proof.
  intros Hf w. destruct (Hf (self w)) as (H1 & H2 & H3 & H4).
  split; simpl; auto.
Qed.

Lemma keeps_perform (e : event) : is_start_call e = false -> keeps (perform e).
Proof.
  intros He w. split; simpl; try reflexivity.
  unfold start_calls. rewrite List.filter_app. simpl. rewrite He.
  apply app_nil_r.
Qed.

Lemma keeps_assign_global (identifier : string) (v : value) :
  keeps (assign_global identifier v).
Proof. intros w. split; reflexivity. Qed.

Lemma keeps_resolve (identifier : string) : keeps (resolve identifier).
Proof.
  intros w. unfold exec, resolve.
  destruct (scope w !! identifier); apply handshake_untouched_refl.
Qed.

Lemma keeps_typeof_defined (identifier : string) :
  keeps (typeof_defined identifier).
Proof. intros w. apply handshake_untouched_refl. Qed.

Lemma keeps_get_prop (v : value) (k : string) : keeps (get_prop v k).
Proof. destruct v; first [apply keeps_throw | apply keeps_ret]. Qed.

Lemma keeps_set_prop (v : value) (k : string) (x : value) :
  keeps (set_prop v k x).
Proof.
  destruct v; first [apply keeps_throw | apply keeps_ret | apply keeps_escape].
Qed.

Lemma harmless_set_requests m : harmless (set_requests m).
Proof. intros c. repeat split. Qed.

Lemma harmless_set_idCounter n : harmless (set_idCounter n).
Proof. intros c. repeat split. Qed.

Lemma harmless_set_networkCommands m : harmless (set_networkCommands m).
Proof. intros c. repeat split. Qed.

Lemma harmless_set_networkCommandsIndex m :
  harmless (set_networkCommandsIndex m).
Proof. intros c. repeat split. Qed.

#[global] Hint Resolve keeps_ret keeps_skip keeps_throw keeps_escape keeps_this
  keeps_assign keeps_assign_global keeps_resolve keeps_typeof_defined
  keeps_get_prop keeps_set_prop
  harmless_set_requests harmless_set_idCounter harmless_set_networkCommands
  harmless_set_networkCommandsIndex : keeps.

(** Walks a computation down to its primitive steps. *)
Ltac keeps_step :=
  lazymatch goal with
  | |- keeps (_ ≫= _) => apply keeps_bind; [| intros ?]
  | |- keeps (perform _) => apply keeps_perform; reflexivity
  | |- keeps (log _ _) => apply keeps_perform; reflexivity
  | |- keeps (if ?b then _ else _) => destruct b
  | |- keeps (match ?x with _ => _ end) => destruct x
  | |- keeps _ => solve [auto with keeps]
  end.

Ltac keeps_all := repeat keeps_step.

Lemma keeps_io_send commandIndex data : keeps (io_send commandIndex data).
Proof. unfold io_send. keeps_all. Qed.

Lemma keeps_define commandName callback : keeps (define commandName callback).
Proof. unfold define. keeps_all. Qed.

Lemma keeps_send commandName data : keeps (send commandName data).
Proof. unfold send. keeps_all. apply keeps_io_send. Qed.

#[global] Hint Resolve keeps_io_send keeps_define keeps_send : keeps.

Lemma keeps_newIdHex env : keeps (newIdHex env).
Proof. unfold newIdHex. keeps_all. Qed.

#[global] Hint Resolve keeps_newIdHex : keeps.

Lemma keeps_request env commandName data callback :
  keeps (request env commandName data callback).
Proof. unfold request. keeps_all. Qed.

Lemma keeps_response requestId data : keeps (response requestId data).
Proof. unfold response. keeps_all. Qed.

Lemma keeps_handler_table_requests {A : Type} :
  keeps (handler_table_requests : Js A).
Proof. unfold handler_table_requests. keeps_all. Qed.

#[global] Hint Resolve keeps_handler_table_requests : keeps.

Lemma keeps_requests_get r key : keeps (requests_get r key).
Proof. unfold requests_get. keeps_all. Qed.

Lemma keeps_requests_set r key v : keeps (requests_set r key v).
Proof. unfold requests_set. keeps_all. Qed.

Lemma keeps_requests_delete r key : keeps (requests_delete r key).
Proof. unfold requests_delete. keeps_all. Qed.

Lemma keeps_emit r eventName data : keeps (emit r eventName data).
Proof. unfold emit. keeps_all. Qed.

Lemma keeps_call site f args :
  site <> AsStartCallback -> keeps (call site f args).
Proof.
  intros Hsite. unfold call.
  destruct f as [| | | | | | | [text | | | name]]; auto with keeps.
  apply keeps_perform. destruct site; [congruence | reflexivity..].
Qed.

#[global] Hint Resolve keeps_requests_get keeps_requests_set
  keeps_requests_delete keeps_emit : keeps.

Lemma keeps_onRequest r data : keeps (_onRequest r data).
Proof. unfold _onRequest. keeps_all. Qed.

Lemma keeps_onResponse r data : keeps (_onResponse r data).
Proof.
  unfold _onResponse. keeps_all. apply keeps_call. discriminate.
Qed.

#[global] Hint Resolve keeps_onRequest keeps_onResponse : keeps.

Lemma keeps_apply_handler handler data : keeps (apply_handler handler data).
Proof.
  unfold apply_handler.
  destruct handler as [| | | | | | | [text | | | name]]; auto with keeps;
    apply keeps_call; discriminate.
Qed.

#[global] Hint Resolve keeps_apply_handler : keeps.

Lemma keeps_onMessageFromServer data : keeps (_onMessageFromServer data).
Proof. unfold _onMessageFromServer. keeps_all. Qed.

Lemma keeps_onConnectToServer : keeps _onConnectToServer.
Proof. unfold _onConnectToServer. keeps_all. Qed.

Lemma keeps_onDisconnectFromServer data : keeps (_onDisconnectFromServer data).
Proof.
  unfold _onDisconnectFromServer. apply keeps_bind; [| intros ?; keeps_all].
  destruct data; try (apply keeps_perform; reflexivity).
  repeat case_match; apply keeps_perform; reflexivity.
Qed.

Lemma keeps_onError data : keeps (_onError data).
Proof. unfold _onError. keeps_all. Qed.

(** ** The handshake *)

(** Decides [is_inherited] where the name is a literal. *)
Ltac literal k :=
  lazymatch k with
  | EmptyString => idtac
  | String _ ?rest => literal rest
  end.

Ltac known_names :=
  repeat match goal with
         | |- context [is_inherited ?k] =>
             literal k;
             let b := eval vm_compute in (is_inherited k) in
             change (is_inherited k) with b
         end.

Ltac run_js :=
  unfold outcome, exec, handshake, define, send, table_read, io_send, start,
    log, this, assign, perform, skip, call, typeof_defined, is_defined,
    mbind, Js_bind, mret, Js_ret;
  cbn; known_names; cbn.

Lemma handshake_data_frame (commandIndex : Z) (payload : value) (w : world) :
  handshake (DataFrame commandIndex payload) w = (Normal tt, w).
Proof. run_js. destruct (_initDone (self w)); reflexivity. Qed.

Lemma handshake_done (data : frame) (w : world) :
  _initDone (self w) = true -> handshake data w = (Normal tt, w).
Proof. intros Hdone. run_js. rewrite Hdone. reflexivity. Qed.

(** The loop of lines 49 to 54 runs through when the table declares no
    command named [hasOwnProperty]. *)
Lemma fill_reverse_lookup_runs (t : table) (keys : list string) (n : nat)
  (w : world) :
  t !! "hasOwnProperty" = None ->
  fill_reverse_lookup t keys n w =
    (Normal (n + counted t keys)%nat,
     with_self
       (set_networkCommandsIndex
          (reverse_entries t keys (_networkCommandsIndex (self w)))) w).
Proof.
  intros Hown. revert n w.
  induction keys as [| i rest IH]; intros n w; simpl.
  - rewrite Nat.add_0_r. destruct w as [[] ? ?]. reflexivity.
  - unfold own_entry, counted. rewrite Hown. run_js.
    destruct (t !! i) as [commandIndex |]; cbn.
    + rewrite IH. unfold counted. cbn. f_equal. f_equal. lia.
    + rewrite IH. reflexivity.
Qed.

Lemma own_keys_lookup (t : table) (k : string) (i : Z) :
  t !! k = Some i -> k ∈ own_keys t.
Proof.
  unfold own_keys, lookup, table_lookup. destruct t as [l]. simpl.
  intros Hk. apply elem_of_remove_dups.
  induction l as [| [k' i'] rest IH]; simpl in *; [discriminate |].
  destruct (String.eqb k' k) eqn:Heq.
  - apply String.eqb_eq in Heq. subst. left.
  - right. apply IH, Hk.
Qed.

Lemma lookup_own_keys (t : table) (k : string) :
  k ∈ own_keys t -> is_Some (t !! k).
Proof.
  unfold own_keys, lookup, table_lookup. destruct t as [l]. simpl.
  rewrite elem_of_remove_dups.
  induction l as [| [k' i'] rest IH]; simpl; intros Hk.
  - inversion Hk.
  - destruct (String.eqb k' k) eqn:Heq; [eauto |].
    apply String.eqb_neq in Heq.
    apply elem_of_cons in Hk as [Hk | Hk]; [congruence | apply IH, Hk].
Qed.

(** It stops at its first step when the table does declare one: line 50
    then calls a number. *)
Lemma fill_reverse_lookup_aborts (t : table) (i : Z) (n : nat) (w : world) :
  t !! "hasOwnProperty" = Some i ->
  fill_reverse_lookup t (own_keys t) n w = (Throw TypeError, w).
Proof.
  intros Hown. pose proof (own_keys_lookup _ _ _ Hown) as Hin.
  destruct (own_keys t) as [| k rest]; [inversion Hin |].
  simpl. unfold own_entry. rewrite Hown. reflexivity.
Qed.

(** The first handshake frame: the table is installed and the start
    callback is called. *)
Lemma handshake_first (ncmds : table) (w : world) (text : string) :
  _initDone (self w) = false ->
  ncmds !! "hasOwnProperty" = None ->
  _startCallback (self w) = VFun (Collaborator text) ->
  let w' := exec (handshake (InitFrame ncmds)) w in
  outcome (handshake (InitFrame ncmds)) w = Normal tt /\
  _initDone (self w') = true /\
  _networkCommandsLookup (self w') = ncmds /\
  _io (self w') = _io (self w) /\
  start_calls (trace w') =
    (start_calls (trace w) ++ [Called AsStartCallback text []])%list.
Proof.
  intros Hinit Hown Hcb. run_js. rewrite Hinit. cbn.
  rewrite fill_reverse_lookup_runs by exact Hown. cbn.
  destruct (ncmds !! "_igeRequest"); cbn;
    destruct (ncmds !! "_igeResponse"); cbn; rewrite Hcb; cbn;
    unfold start_calls; rewrite ?List.filter_app; cbn;
    rewrite ?app_nil_r; auto.
Qed.

(** A first handshake frame whose table declares a command named
    [hasOwnProperty] marks the handshake as done and installs the table,
    and that is all: nothing is bound, logged or called. *)
Lemma handshake_aborts (ncmds : table) (i : Z) (w : world) :
  _initDone (self w) = false ->
  ncmds !! "hasOwnProperty" = Some i ->
  handshake (InitFrame ncmds) w =
    (Throw TypeError,
     with_self (set_networkCommandsLookup ncmds)
       (with_self (set_initDone true) w)).
Proof.
  intros Hinit Hown. run_js. rewrite Hinit. cbn.
  rewrite (fill_reverse_lookup_aborts ncmds i) by exact Hown. reflexivity.
Qed.

(** Whatever the start callback and the table are, the first handshake
    frame installs the table and marks the handshake as done. *)
Lemma handshake_installs (ncmds : table) (w : world) :
  _initDone (self w) = false ->
  let w' := exec (handshake (InitFrame ncmds)) w in
  _initDone (self w') = true /\
  _networkCommandsLookup (self w') = ncmds /\
  _io (self w') = _io (self w).
Proof.
  intros Hinit. destruct (ncmds !! "hasOwnProperty") as [i |] eqn:Hown.
  - simpl. unfold exec. rewrite (handshake_aborts ncmds i) by assumption.
    simpl. auto.
  - run_js. rewrite Hinit. cbn.
    rewrite fill_reverse_lookup_runs by exact Hown. cbn.
    destruct (ncmds !! "_igeRequest"); cbn;
      destruct (ncmds !! "_igeResponse"); cbn;
      destruct (_startCallback (self w)) as [| | | | | | | [text | | | name]];
      cbn; auto.
Qed.

Lemma exec_on_message (data : frame) (w : world) :
  outcome (handshake data) w = Normal tt ->
  exec (on_message data) w =
  exec (_onMessageFromServer data) (exec (handshake data) w).
Proof.
  unfold on_message, outcome. rewrite exec_bind. unfold exec at 3.
  destruct (handshake data w) as [[[] | e |] w']; simpl; congruence.
Qed.

(** The first handshake frame, handshake and dispatch together. *)
Lemma first_frame_installs (ncmds : table) (w : world) :
  _initDone (self w) = false ->
  let w' := step (SocketMessage (InitFrame ncmds)) w in
  _initDone (self w') = true /\ _networkCommandsLookup (self w') = ncmds.
Proof.
  intros Hinit. simpl. unfold on_message. rewrite exec_bind.
  pose proof (handshake_installs ncmds w Hinit) as (H1 & H2 & _).
  unfold exec in H1, H2.
  destruct (handshake (InitFrame ncmds) w) as [[[] | e |] w'];
    simpl in H1, H2; auto.
  destruct (keeps_onMessageFromServer (InitFrame ncmds) w')
    as [K1 _ K3 _ _].
  rewrite K1, K3. auto.
Qed.

(** [start] stores its callback and decides nothing else about the
    handshake. *)
Lemma start_effect (url callback : value) (w : world) :
  let w' := exec (start url callback) w in
  _initDone (self w') = _initDone (self w) /\
  _networkCommandsLookup (self w') = _networkCommandsLookup (self w) /\
  _startCallback (self w') = callback /\
  start_calls (trace w') = start_calls (trace w) /\
  (is_Some (_io (self w)) -> is_Some (_io (self w'))).
Proof.
  run_js. destruct (is_undefined url); cbn;
    destruct (scope w !! "WebSocket") as [v |]; cbn;
    try destruct (is_undefined v); cbn;
    unfold start_calls; rewrite ?List.filter_app; cbn;
    rewrite ?app_nil_r; eauto 10.
Qed.

(** ** Sessions *)

Lemma step_quiet (a : action) (w : world) :
  quiet a = true -> handshake_untouched w (step a w).
Proof.
  destruct a as [| | | | | | [ncmds | i p] | |]; simpl; try discriminate;
    intros _.
  - apply keeps_define.
  - apply keeps_send.
  - apply keeps_request.
  - apply keeps_response.
  - apply keeps_onConnectToServer.
  - rewrite exec_on_message
      by (unfold outcome; rewrite handshake_data_frame; reflexivity).
    unfold exec at 2. rewrite handshake_data_frame.
    apply keeps_onMessageFromServer.
  - apply keeps_onDisconnectFromServer.
  - apply keeps_onError.
Qed.

Lemma run_quiet (actions : list action) (w : world) :
  forallb quiet actions = true -> handshake_untouched w (run actions w).
Proof.
  revert w. induction actions as [| a actions IH]; intros w Hq; simpl.
  - apply handshake_untouched_refl.
  - simpl in Hq. apply andb_prop in Hq as [Ha Hq].
    eapply handshake_untouched_trans; [apply step_quiet, Ha | apply IH, Hq].
Qed.

Lemma settled_untouched ncmds calls (w w' : world) :
  handshake_untouched w w' -> settled ncmds calls w -> settled ncmds calls w'.
Proof.
  intros [H1 _ H3 _ H5] (Hd & Hl & Hc). unfold settled.
  rewrite H1, H3, H5. auto.
Qed.

Lemma step_settled ncmds calls (a : action) (w : world) :
  settled ncmds calls w -> settled ncmds calls (step a w).
Proof.
  intros Hs. destruct (quiet a) eqn:Hq.
  - eapply settled_untouched; [apply step_quiet, Hq | exact Hs].
  - destruct Hs as (Hd & Hl & Hc).
    destruct a as [url cb | | | | | | [ncmds' | i p] | |]; try discriminate;
      simpl.
    + destruct (start_effect url cb w) as (H1 & H2 & _ & H4 & _).
      unfold settled. rewrite H1, H2, H4. auto.
    + rewrite exec_on_message
        by (unfold outcome; rewrite handshake_done by exact Hd; reflexivity).
      unfold exec at 2. rewrite handshake_done by exact Hd. simpl.
      eapply settled_untouched; [apply keeps_onMessageFromServer |].
      unfold settled; auto.
Qed.

Lemma run_settled ncmds calls (actions : list action) (w : world) :
  settled ncmds calls w -> settled ncmds calls (run actions w).
Proof.
  revert w. induction actions as [| a actions IH]; intros w Hs; simpl.
  - exact Hs.
  - apply IH, step_settled, Hs.
Qed.



(** ** The command table *)


(** A name under which line 117 reads [undefined], that is, one the table
    neither has nor inherits: [send(name, data)] returns normally, hands
    nothing to the socket, and leaves the component and the global scope
    as they were; its one effect is the error message of line 122. *)
Lemma send_unknown_name_is_rejected
  (w : world) (commandName data : value) :
  table_read (_networkCommandsLookup (self w)) (to_key commandName) = None ->
  send commandName data w =
    (Normal tt,
     {| self := self w; scope := scope w;
        trace := trace w ++ [Log LogError (CannotSendUndefined commandName)] |}).
Proof.
  intros Hnone.
  unfold send, log, this, perform, mbind, Js_bind, mret, Js_ret.
  rewrite Hnone. reflexivity.
Qed.

(** A name the table does not have but inherits a member under:
    [send(name, data)] logs nothing and hands the socket a frame with
    that member where the index belongs. *)
Lemma send_inherited_name (w : world) (name : string) (data io : value) :
  _networkCommandsLookup (self w) !! name = None ->
  is_inherited name = true ->
  _io (self w) = Some io ->
  send (VStr name) data w =
    (Normal tt,
     {| self := self w; scope := scope w;
        trace := trace w ++ [NetIoSend (Inherited name) data] |}).
Proof.
  intros Hnone Hin Hio.
  unfold send, table_read, io_send, this, perform, mbind, Js_bind, mret,
    Js_ret.
  cbn. rewrite Hnone, Hin. cbn. rewrite Hio. reflexivity.
Qed.

(** C6.  The name [toString] is in no table, yet [send('toString', 'x')]
    logs nothing and hands the socket a frame: line 117 finds the member
    every object inherits under that name, and line 119 puts it where the
    index belongs.  This holds after the handshake and before it, while
    the table is still empty. *)
Theorem send_inherited_name_is_transmitted :
  _networkCommandsLookup (self playing) !! "toString" = None /\
  send (VStr "toString") (VStr "x") playing =
    (Normal tt,
     {| self := self playing; scope := scope playing;
        trace := trace playing ++
                 [NetIoSend (Inherited "toString") (VStr "x")] |}) /\
  _networkCommandsLookup (self connecting) = ∅ /\
  send (VStr "toString") (VStr "x") connecting =
    (Normal tt,
     {| self := self connecting; scope := scope connecting;
        trace := trace connecting ++
                 [NetIoSend (Inherited "toString") (VStr "x")] |}).
Proof. vm_compute. repeat split; reflexivity. Qed.

(** ** The start callback *)

(** C3, amended.  Start a component with a function [onReady] as callback
    and let a handshake frame arrive.  If the component had not seen a
    handshake frame before, and the table of the frame declares no command
    named [hasOwnProperty]: whatever happens before the frame (short of
    another [start]) calls no start callback; the frame calls [onReady]
    once, without arguments; and whatever happens afterwards, further
    handshake frames and further calls of [start] included, calls no start
    callback again.  If the component had seen a handshake frame before,
    [onReady] is never called, whatever happens. *)
Theorem ready_callback_fires_once
  (w : world) (url : value) (onReady : string) (ncmds : table)
  (before after : list action) :
  let started :=
    run before (step (CallStart url (VFun (Collaborator onReady))) w) in
  let shaken := step (SocketMessage (InitFrame ncmds)) started in
  (_initDone (self w) = false ->
   forallb quiet before = true ->
   ncmds !! "hasOwnProperty" = None ->
   start_calls (trace started) = start_calls (trace w) /\
   start_calls (trace shaken) =
     (start_calls (trace w) ++ [Called AsStartCallback onReady []])%list /\
   start_calls (trace (run after shaken)) =
     (start_calls (trace w) ++ [Called AsStartCallback onReady []])%list) /\
  (_initDone (self w) = true ->
   start_calls (trace started) = start_calls (trace w) /\
   start_calls (trace shaken) = start_calls (trace w) /\
   start_calls (trace (run after shaken)) = start_calls (trace w)).
Proof.
  intros started shaken. split.
  - intros Hinit Hquiet Hown.
    destruct (start_effect url (VFun (Collaborator onReady)) w)
      as (S1 & _ & S3 & S4 & _).
    destruct (run_quiet before
                (step (CallStart url (VFun (Collaborator onReady))) w) Hquiet)
      as [Q1 Q2 _ _ Q5].
    fold started in Q1, Q2, Q5. simpl in Q1, Q2, Q5.
    assert (Hnot : _initDone (self started) = false) by congruence.
    assert (Hcb : _startCallback (self started) = VFun (Collaborator onReady))
      by congruence.
    assert (Hcalls : start_calls (trace started) = start_calls (trace w))
      by congruence.
    destruct (handshake_first ncmds started onReady Hnot Hown Hcb)
      as (F0 & F1 & F2 & _ & F5).
    assert (Hs : settled ncmds
                   (start_calls (trace w) ++
                    [Called AsStartCallback onReady []])
                   shaken).
    { unfold shaken. simpl. rewrite exec_on_message by exact F0.
      eapply settled_untouched; [apply keeps_onMessageFromServer |].
      unfold settled. rewrite F1, F2, F5, Hcalls. auto. }
    split; [exact Hcalls |]. split.
    + apply Hs.
    + apply (run_settled _ _ after) in Hs. apply Hs.
  - intros Hdone.
    assert (Hs : settled (_networkCommandsLookup (self w))
                   (start_calls (trace w)) w)
      by (unfold settled; auto).
    apply (step_settled _ _ (CallStart url (VFun (Collaborator onReady))))
      in Hs.
    apply (run_settled _ _ before) in Hs. fold started in Hs.
    split; [apply Hs |].
    apply (step_settled _ _ (SocketMessage (InitFrame ncmds))) in Hs.
    fold shaken in Hs.
    split; [apply Hs |].
    apply (run_settled _ _ after) in Hs. apply Hs.
Qed.

(** ** The request tracker: issuing requests *)

(** C10, amended.  [request] stores the pending entry under the id
    [newIdHex] has just produced, whatever was stored under that id
    before, and does so before it tries to send: the entry is in the map
    and the counter is one higher however the call ends, no other property
    and nothing in the global scope having changed.  When the reserved
    command [_igeRequest] is not in the table, as before the handshake,
    the call returns normally, nothing is handed to the socket, and the
    one thing added to the trace is the error message of line 122. *)
Theorem request_stores_before_sending
  (env : ambient) (commandName data callback : value) (w : world) :
  let id := toString16 env (_idCounter (self w) + 1) in
  let req := VObj [("id", VStr id); ("cmd", commandName); ("data", data);
                   ("callback", callback);
                   ("timestamp", VNum (getTime env))] in
  let w' := exec (request env commandName data callback) w in
  _requests (self w') = <[id := req]> (_requests (self w)) /\
  _idCounter (self w') = _idCounter (self w) + 1 /\
  within [F_idCounter; F_requests] w w' /\
  scope w' = scope w /\
  (_networkCommandsLookup (self w) !! "_igeRequest" = None ->
   outcome (request env commandName data callback) w = Normal tt /\
   trace w' =
     (trace w ++
      [Log LogError (CannotSendUndefined (VStr "_igeRequest"))])%list).
Proof.
  intros id req w'. unfold w', id, req.
  unfold request, newIdHex. run_js.
  destruct (_networkCommandsLookup (self w) !! "_igeRequest") eqn:Hl; cbn;
    [destruct (_io (self w)) |]; cbn;
    (split; [reflexivity |]); (split; [reflexivity |]);
    (split; [intros f Hf; destruct f; try reflexivity;
             exfalso; apply Hf; repeat constructor |]);
    (split; [reflexivity |]); intros Hnone; try discriminate;
    split; reflexivity.
Qed.

(** ** Starting without a transport *)

(** C8, amended.  Without [WebSocket], [start(url, onReady)] returns
    normally, opens no connection, registers no listener and calls
    nothing; it does store [onReady] in [_startCallback], store [url] in
    [_url] when one is given, and log the connecting message of line 25.
    Nothing else changes. *)
Theorem start_without_websocket (url callback : value) (w : world) :
  is_defined "WebSocket" w = false ->
  start url callback w =
    (Normal tt,
     {| self := if is_undefined url
                then set_startCallback callback (self w)
                else set_url url (set_startCallback callback (self w));
        scope := scope w;
        trace := trace w ++
                 [Log LogInfo
                    (ConnectingTo (if is_undefined url then _url (self w)
                                   else url))] |}).
Proof.
  unfold start, typeof_defined, is_defined, log, this, assign, perform, skip,
    mbind, Js_bind, mret, Js_ret.
  destruct (is_undefined url); cbn;
    destruct (scope w !! "WebSocket") as [v |]; cbn;
    intros Hws; rewrite ?Hws; reflexivity.
Qed.

(** ** Frames with an unknown index *)

(** C7, amended.  For a frame whose index the reverse table does not
    have, and with no handler bound under the name [undefined] (which is
    where the lookup of line 236 then looks), dispatch returns normally,
    calls no handler, logs nothing and changes nothing; it emits one
    event, whose name is [undefined], carrying the payload. *)
Theorem unknown_index_is_emitted_unnamed
  (commandIndex : Z) (payload : value) (w : world) :
  _networkCommandsIndex (self w) !! commandIndex = None ->
  _networkCommands (self w) !! "undefined" = None ->
  _onMessageFromServer (DataFrame commandIndex payload) w =
    (Normal tt,
     {| self := self w; scope := scope w;
        trace := trace w ++ [Emit VUndef payload] |}).
Proof.
  intros Hindex Hhandler.
  unfold _onMessageFromServer, read, emit, this, perform, skip,
    mbind, Js_bind, mret, Js_ret.
  cbn. unfold mbind, option_bind. rewrite Hindex. cbn.
  rewrite Hhandler. reflexivity.
Qed.

(** ** The request tracker: handlers and replies *)

(** Without a global [socket], [_onRequest] throws at line 195, whatever
    the payload, before it stores or emits anything. *)
Lemma onRequest_throws (r : receiver) (data : value) (w : world) :
  scope w !! "socket" = None ->
  _onRequest r data w = (Throw (ReferenceError "socket"), w).
Proof.
  intros Hsocket.
  unfold _onRequest, resolve, mbind, Js_bind.
  rewrite Hsocket. reflexivity.
Qed.

(** With a global [socket], and called as a method of the component,
    [_onRequest] does what lines 196 and 198 say: it writes the request,
    now carrying the socket, into the map [request] writes to, replacing
    whatever was stored under the id, and emits the event. *)
Lemma onRequest_shares_map
  (props : list (string * value)) (socket : value) (w : world) :
  scope w !! "socket" = Some socket ->
  let stored := assoc_set props "socket" socket in
  let id := default VUndef (assoc_get stored "id") in
  _onRequest ThisComponent (VObj props) w =
    (Normal tt,
     {| self := set_requests (<[to_key id := VObj stored]> (_requests (self w)))
                  (self w);
        scope := scope w;
        trace := trace w ++
                 [Emit (default VUndef (assoc_get stored "cmd"))
                    (VArr [id; default VUndef (assoc_get stored "data")])] |}).
Proof.
  intros Hsocket.
  unfold _onRequest, resolve,
    set_prop, get_prop, requests_set, emit, this, assign, perform, skip,
    mbind, Js_bind, mret, Js_ret.
  cbn. rewrite Hsocket. reflexivity.
Qed.

(** Without a global [commandName], [_onResponse] throws at line 212 when
    it finds the request: after the two globals are written, before the
    continuation is called, and so before the entry is removed. *)
Lemma onResponse_throws_when_pending
  (props : list (string * value)) (req : value) (w : world) :
  let id := default VUndef (assoc_get props "id") in
  _requests (self w) !! to_key id = Some req ->
  truthy req = true ->
  scope w !! "commandName" = None ->
  _onResponse ThisComponent (VObj props) w =
    (Throw (ReferenceError "commandName"),
     {| self := self w;
        scope := <["req" := req]> (<["id" := id]> (scope w));
        trace := trace w |}).
Proof.
  intros id Hreq Htruthy Hname.
  unfold _onResponse, requests_get, read, get_prop, assign_global, resolve,
    this, mbind, Js_bind, mret, Js_ret.
  cbn. fold id. rewrite Hreq. cbn. rewrite Htruthy.
  assert (Hscope : <["req" := req]> (<["id" := id]> (scope w))
                     !! "commandName" = None).
  { rewrite !lookup_insert_ne by discriminate. exact Hname. }
  destruct req; try discriminate; cbn; rewrite Hscope; reflexivity.
Qed.

(** A response frame whose id matches nothing, own or inherited, returns
    normally; it leaves the two globals behind. *)
Lemma onResponse_unknown_id (props : list (string * value)) (w : world) :
  let id := default VUndef (assoc_get props "id") in
  read (_requests (self w)) (to_key id) = VUndef ->
  _onResponse ThisComponent (VObj props) w =
    (Normal tt,
     {| self := self w;
        scope := <["req" := VUndef]> (<["id" := id]> (scope w));
        trace := trace w |}).
Proof.
  intros id Hreq.
  unfold _onResponse, requests_get, get_prop, assign_global, this, skip,
    mbind, Js_bind, mret, Js_ret.
  cbn. fold id. rewrite Hreq. reflexivity.
Qed.

(** Called by the dispatcher, [_onResponse] looks for [_requests] on the
    handler table and throws at line 208, pending request or not. *)
Lemma onResponse_on_handler_table
  (props : list (string * value)) (w : world) :
  _networkCommands (self w) !! "_requests" = None ->
  _onResponse ThisHandlerTable (VObj props) w =
    (Throw TypeError,
     {| self := self w;
        scope := <["id" := default VUndef (assoc_get props "id")]> (scope w);
        trace := trace w |}).
Proof.
  intros Hnone.
  unfold _onResponse, requests_get, handler_table_requests, get_prop,
    assign_global, this, mbind, Js_bind, mret, Js_ret.
  cbn. rewrite Hnone. reflexivity.
Qed.

(** Where a global [commandName] does exist, [_onResponse] as a method of
    the component calls the continuation, with that global first and the
    payload second, and removes the entry. *)
Lemma onResponse_with_global_commandName
  (props entry : list (string * value)) (text : string) (name : value)
  (w : world) :
  let id := default VUndef (assoc_get props "id") in
  _requests (self w) !! to_key id = Some (VObj entry) ->
  assoc_get entry "callback" = Some (VFun (Collaborator text)) ->
  scope w !! "commandName" = Some name ->
  _onResponse ThisComponent (VObj props) w =
    (Normal tt,
     {| self := set_requests (delete (to_key id) (_requests (self w))) (self w);
        scope := <["req" := VObj entry]> (<["id" := id]> (scope w));
        trace := trace w ++
                 [Called AsContinuation text
                    [name; default VUndef (assoc_get props "data")]] |}).
Proof.
  intros id Hreq Hcallback Hname.
  unfold _onResponse, requests_get, read, requests_delete, get_prop,
    assign_global, resolve, call, this, assign, perform, mbind, Js_bind,
    mret, Js_ret.
  cbn. fold id. rewrite Hreq. cbn. rewrite Hcallback. cbn.
  rewrite !lookup_insert_ne by discriminate. rewrite Hname. reflexivity.
Qed.

(** What [response] sends for a stored request: the [cmd] of the envelope
    is the request's [commandName] property. *)
Lemma response_envelope
  (requestId data : value) (props : list (string * value))
  (commandIndex : Z) (io : value) (w : world) :
  _requests (self w) !! to_key requestId = Some (VObj props) ->
  _networkCommandsLookup (self w) !! "_igeResponse" = Some commandIndex ->
  _io (self w) = Some io ->
  response requestId data w =
    (Normal tt,
     {| self := set_requests (delete (to_key requestId) (_requests (self w)))
                  (self w);
        scope := scope w;
        trace := trace w ++
                 [NetIoSend commandIndex
                    (VObj [("id", requestId);
                           ("cmd", default VUndef
                                     (assoc_get props "commandName"));
                           ("data", data)])] |}).
Proof.
  intros Hreq Hindex Hio.
  unfold response, read, send, table_read, io_send, get_prop, this, assign,
    perform, mbind, Js_bind, mret, Js_ret.
  cbn. rewrite Hreq. cbn. rewrite Hindex. cbn. rewrite Hio. reflexivity.
Qed.

(** [response] with an id that matches nothing, own or inherited, does
    nothing. *)
Lemma response_unknown_id (requestId data : value) (w : world) :
  read (_requests (self w)) (to_key requestId) = VUndef ->
  response requestId data w = (Normal tt, w).
Proof.
  intros Hreq. unfold response, this, skip, mbind, Js_bind, mret, Js_ret.
  cbn. rewrite Hreq. reflexivity.
Qed.

(** ** Worked sessions: the request tracker on the wire *)

(** The first scenario of the spec: after the handshake, [move] can be
    bound and sent, [jump] cannot be bound. *)
Example scenario_define_and_send :
  let h := VFun (Collaborator "onMove") in
  let w := run [CallDefine (VStr "move") h; CallDefine (VStr "jump") h;
                CallSend (VStr "move") (VObj [("x", VNum 1)])] playing in
  events_since playing w =
    [Log LogError (CannotDefineUnknown (VStr "jump"));
     NetIoSend 1 (VObj [("x", VNum 1)])] /\
  _networkCommands (self w) !! "move" = Some h /\
  _networkCommands (self w) !! "jump" = None.
Proof. vm_compute. repeat split; reflexivity. Qed.

(** The second scenario, as far as the request goes: it is stored and
    sent under [_igeRequest]. *)
Example scenario_request :
  events_since playing awaiting =
    [NetIoSend 3 (VObj [("id", VStr "a41f1"); ("cmd", VStr "chat");
                        ("data", VStr "hi")])] /\
  _requests (self awaiting) = {[ "a41f1" := outgoing ]} /\
  _idCounter (self awaiting) = 1.
Proof. vm_compute. repeat split; reflexivity. Qed.

(** A server that declares a command named [hasOwnProperty]: the first
    handshake frame ends in a TypeError at line 50.  The flag is set and
    the table installed, but the reverse table stays empty, no tracker
    handler is bound, nothing is logged or emitted, and the start callback
    is not called, then or on any later handshake frame. *)
Example handshake_with_hasOwnProperty_command :
  let t : table := {[ "hasOwnProperty" := 1; "move" := 2 ]} in
  let w := step (SocketMessage (InitFrame t)) connecting in
  outcome (on_message (InitFrame t)) connecting = Throw TypeError /\
  _initDone (self w) = true /\
  _networkCommandsLookup (self w) = t /\
  _networkCommandsIndex (self w) = ∅ /\
  _networkCommands (self w) = ∅ /\
  events_since connecting w = [] /\
  start_calls
    (trace (run [SocketMessage (InitFrame t);
                 SocketMessage (InitFrame sample_table)] w)) = [].
Proof. vm_compute. repeat split; reflexivity. Qed.

(** Names every object inherits pass the test of line 98 as they pass
    that of line 117: [define('constructor', h)] binds [h] and logs
    nothing, though no table declares the name. *)
Example define_inherited_name_binds :
  let h := VFun (Collaborator "onConstructor") in
  let w := exec (define (VStr "constructor") h) playing in
  _networkCommandsLookup (self playing) !! "constructor" = None /\
  _networkCommands (self w) !! "constructor" = Some h /\
  events_since playing w = [].
Proof. vm_compute. repeat split; reflexivity. Qed.

(** C1.  The client has the request [a41f1] outstanding, with
    continuation [onReply], and the reply arrives.  Called as a method of
    the component, [_onResponse] throws a ReferenceError for
    [commandName]; delivered by the socket, where the dispatcher calls it
    on the handler table, it throws a TypeError.  Either way nothing is
    called and the entry stays in the map. *)
Theorem reply_reaches_no_continuation :
  _requests (self awaiting) !! "a41f1" = Some outgoing /\
  outcome (_onResponse ThisComponent reply) awaiting =
    Throw (ReferenceError "commandName") /\
  events_since awaiting (exec (_onResponse ThisComponent reply) awaiting) = [] /\
  _requests (self (exec (_onResponse ThisComponent reply) awaiting)) !! "a41f1"
    = Some outgoing /\
  outcome (on_message (DataFrame 4 reply)) awaiting = Throw TypeError /\
  events_since awaiting (exec (on_message (DataFrame 4 reply)) awaiting) = [] /\
  _requests (self (exec (on_message (DataFrame 4 reply)) awaiting)) !! "a41f1"
    = Some outgoing.
Proof. vm_compute. repeat split; reflexivity. Qed.

(** C5.  A request frame from the server arrives at a client that has
    completed the handshake.  The handler throws a ReferenceError for
    [socket], whether the socket delivers the frame or [_onRequest] is
    called as a method; the world is as before: nothing stored, nothing
    emitted. *)
Theorem inbound_request_is_not_stored :
  on_message (DataFrame 3 inbound) playing =
    (Throw (ReferenceError "socket"), playing) /\
  _onRequest ThisComponent inbound playing =
    (Throw (ReferenceError "socket"), playing) /\
  _requests (self playing) !! "7b20" = None.
Proof. vm_compute. repeat split; reflexivity. Qed.

(** C9.  A request frame from the server carries the id of the client's
    own outstanding request.  The handler throws before it stores
    anything, so the client's entry, continuation included, is still
    there. *)
Theorem clashing_request_leaves_entry :
  on_message (DataFrame 3 clashing) awaiting =
    (Throw (ReferenceError "socket"), awaiting) /\
  _onRequest ThisComponent clashing awaiting =
    (Throw (ReferenceError "socket"), awaiting) /\
  _requests (self awaiting) !! "a41f1" = Some outgoing.
Proof. vm_compute. repeat split; reflexivity. Qed.

(** C4.  The request [inbound], sent under the command name [chat], is
    stored under [7b20].  [response('7b20', 'pong')] sends the envelope
    under [_igeResponse] and removes the entry, but the [cmd] of the
    envelope is [undefined]. *)
Theorem response_envelope_has_no_command :
  _requests (self received) !! "7b20" =
    Some (VObj [("id", VStr "7b20"); ("cmd", VStr "chat");
                ("data", VStr "hi"); ("socket", VObj [])]) /\
  response (VStr "7b20") (VStr "pong") received =
    (Normal tt,
     {| self := set_requests (delete "7b20" (_requests (self received)))
                  (self received);
        scope := scope received;
        trace := trace received ++
                 [NetIoSend 4 (VObj [("id", VStr "7b20"); ("cmd", VUndef);
                                     ("data", VStr "pong")])] |}).
Proof. vm_compute. split; reflexivity. Qed.

(** ** Counterexamples *)

(** C8 fails as worded: on a page without [WebSocket], [start] changes
    the component. *)
Lemma offline_start_changes_component :
  is_defined "WebSocket" offline = false /\
  ~ start_is_noop (VStr "ws://play.example:2000")
      (VFun (Collaborator "onReady")) offline /\
  _startCallback
    (self (exec (start (VStr "ws://play.example:2000")
                   (VFun (Collaborator "onReady"))) offline)) =
    VFun (Collaborator "onReady") /\
  _startCallback (self offline) = VUndef.
Proof.
  split; [reflexivity |]. split; [| split; reflexivity].
  intros (_ & _ & Hself).
  apply (f_equal _startCallback) in Hself. vm_compute in Hself.
  discriminate Hself.
Qed.

(** C7 fails as worded: a frame with an index the table does not have is
    emitted, and nothing is logged. *)
Lemma unknown_index_not_dropped :
  _networkCommandsIndex (self playing) !! 9 = None /\
  ~ unknown_index_dropped 9 (VStr "zz") playing /\
  events_since playing
    (exec (_onMessageFromServer (DataFrame 9 (VStr "zz"))) playing) =
    [Emit VUndef (VStr "zz")].
Proof.
  split; [reflexivity |]. split; [| reflexivity].
  intros (_ & _ & Hemit & _). vm_compute in Hemit. discriminate Hemit.
Qed.

(** C3 fails as worded: a callback passed to [start] after the
    component has seen a handshake frame is never called, though
    handshake frames do arrive. *)
Lemma restart_callback_never_fires :
  _initDone (self playing) = true /\
  ~ ready_fires_once (VStr "ws://play.example:2000") "again" sample_table
      playing /\
  start_calls
    (events_since playing
       (run [CallStart (VStr "ws://play.example:2000")
               (VFun (Collaborator "again"));
             SocketMessage (InitFrame sample_table)] playing)) = [].
Proof.
  split; [reflexivity |]. split; [| reflexivity].
  intros Hcalls. vm_compute in Hcalls. discriminate Hcalls.
Qed.

(** C10 fails as worded: the id is whatever [newIdHex] returns, and when
    that text comes out as it did for an earlier request, the entry is
    stored under an id in use and takes the place of the earlier one. *)
Lemma second_request_reuses_id :
  _requests (self repeating) !! "58d15e176f3" =
    Some (VObj [("id", VStr "58d15e176f3"); ("cmd", VStr "chat");
                ("data", VStr "first");
                ("callback", VFun (Collaborator "onFirst"));
                ("timestamp", VNum 1700000000000)]) /\
  ~ stores_under_fresh_id stuck_env (VStr "chat") (VStr "second")
      (VFun (Collaborator "onSecond")) repeating /\
  _requests
    (self (exec (request stuck_env (VStr "chat") (VStr "second")
                   (VFun (Collaborator "onSecond"))) repeating))
    !! "58d15e176f3" =
    Some (VObj [("id", VStr "58d15e176f3"); ("cmd", VStr "chat");
                ("data", VStr "second");
                ("callback", VFun (Collaborator "onSecond"));
                ("timestamp", VNum 1700000000000)]).
Proof.
  split; [vm_compute; reflexivity |]. split; [| vm_compute; reflexivity].
  intros [Hfresh _]. vm_compute in Hfresh. discriminate Hfresh.
Qed.

(** ** Instances *)


Lemma ready_callback_fires_once_witness :
  (_initDone (self browser) = false /\
   sample_table !! "hasOwnProperty" = None /\
   start_calls
     (trace
        (run [SocketMessage (InitFrame sample_table);
              CallStart VUndef (VFun (Collaborator "again"));
              SocketMessage (InitFrame ∅)]
           (step (SocketMessage (InitFrame sample_table))
              (run [SocketConnect; SocketMessage (DataFrame 1 VNull)]
                 (step (CallStart (VStr "ws://play.example:2000")
                          (VFun (Collaborator "onReady"))) browser))))) =
     [Called AsStartCallback "onReady" []]) /\
  (_initDone (self playing) = true /\
   start_calls
     (trace
        (run [SocketMessage (InitFrame sample_table)]
           (step (SocketMessage (InitFrame sample_table))
              (run [SocketConnect]
                 (step (CallStart (VStr "ws://play.example:2000")
                          (VFun (Collaborator "again"))) playing))))) =
     start_calls (trace playing)).
Proof.
  split.
  - split; [reflexivity |]. split; [reflexivity |].
    refine (proj2 (proj2 (proj1 (ready_callback_fires_once browser
                            (VStr "ws://play.example:2000") "onReady"
                            sample_table
                            [SocketConnect; SocketMessage (DataFrame 1 VNull)]
                            [SocketMessage (InitFrame sample_table);
                             CallStart VUndef (VFun (Collaborator "again"));
                             SocketMessage (InitFrame ∅)]) _ _ _))).
    + reflexivity.
    + reflexivity.
    + reflexivity.
  - split; [reflexivity |].
    refine (proj2 (proj2 (proj2 (ready_callback_fires_once playing
                            (VStr "ws://play.example:2000") "again"
                            sample_table [SocketConnect]
                            [SocketMessage (InitFrame sample_table)]) _))).
    reflexivity.
Defined.

Lemma request_stores_before_sending_witness :
  let w' := exec (request sample_env (VStr "chat") (VStr "hi")
                    (VFun (Collaborator "onReply"))) browser in
  _networkCommandsLookup (self browser) !! "_igeRequest" = None /\
  _requests (self w') = <["a41f1" := outgoing]> (_requests (self browser)) /\
  _idCounter (self w') = 1 /\
  outcome (request sample_env (VStr "chat") (VStr "hi")
             (VFun (Collaborator "onReply"))) browser = Normal tt /\
  trace w' =
    (trace browser ++
     [Log LogError (CannotSendUndefined (VStr "_igeRequest"))])%list.
Proof.
  intros w'.
  pose proof (request_stores_before_sending sample_env (VStr "chat")
                (VStr "hi") (VFun (Collaborator "onReply")) browser)
    as (Hstored & Hcounter & _ & _ & Hquiet).
  split; [reflexivity |].
  split; [exact Hstored |]. split; [exact Hcounter |].
  apply Hquiet. reflexivity.
Defined.

Lemma start_without_websocket_witness :
  is_defined "WebSocket" offline = false /\
  start (VStr "ws://play.example:2000") (VFun (Collaborator "onReady")) offline
  = (Normal tt,
     {| self := set_url (VStr "ws://play.example:2000")
                  (set_startCallback (VFun (Collaborator "onReady"))
                     fresh_component);
        scope := ∅;
        trace := [Log LogInfo
                    (ConnectingTo (VStr "ws://play.example:2000"))] |}).
Proof.
  split; [reflexivity |].
  apply (start_without_websocket (VStr "ws://play.example:2000")
           (VFun (Collaborator "onReady")) offline).
  reflexivity.
Defined.

Lemma unknown_index_is_emitted_unnamed_witness :
  _networkCommandsIndex (self playing) !! 9 = None /\
  _networkCommands (self playing) !! "undefined" = None /\
  _onMessageFromServer (DataFrame 9 (VStr "zz")) playing =
    (Normal tt,
     {| self := self playing; scope := scope playing;
        trace := trace playing ++ [Emit VUndef (VStr "zz")] |}).
Proof.
  split; [reflexivity |]. split; [reflexivity |].
  apply (unknown_index_is_emitted_unnamed 9 (VStr "zz") playing);
    reflexivity.
Defined.

(** * Further properties *)

(** ** What each operation can write *)

Lemma within_refl (fields : list field) (w : world) : within fields w w.
Proof. intros f _. destruct f; reflexivity. Qed.

Lemma within_trans (fields : list field) (w1 w2 w3 : world) :
  within fields w1 w2 -> within fields w2 w3 -> within fields w1 w3.
Proof.
  intros H12 H23 f Hf. specialize (H12 f Hf). specialize (H23 f Hf).
  destruct f; simpl in *; congruence.
Qed.

Lemma within_mono (fields fields' : list field) (w w' : world) :
  fields ⊆ fields' -> within fields w w' -> within fields' w w'.
Proof. intros Hsub H f Hf. apply H. intros Hin. apply Hf, Hsub, Hin. Qed.

(** Nothing written at all: the component is the same. *)
Lemma within_nil (w w' : world) : within [] w w' -> self w' = self w.
Proof.
  intros H.
  assert (Hf : forall f, unchanged f (self w) (self w')).
  { intros f. apply H. apply not_elem_of_nil. }
  pose proof (Hf F_initDone) as H1. pose proof (Hf F_idCounter) as H2.
  pose proof (Hf F_requests) as H3. pose proof (Hf F_startCallback) as H4.
  pose proof (Hf F_url) as H5. pose proof (Hf F_io) as H6.
  pose proof (Hf F_entity) as H7. pose proof (Hf F_networkCommands) as H8.
  pose proof (Hf F_networkCommandsIndex) as H9.
  pose proof (Hf F_networkCommandsLookup) as H10.
  destruct (self w), (self w'). simpl in *. congruence.
Qed.

Create HintDb touches.

Lemma touches_ret {A : Type} fields (a : A) : touches fields (mret a : Js A).
Proof. intros w. apply within_refl. Qed.

Lemma touches_skip fields : touches fields skip.
Proof. apply touches_ret. Qed.

Lemma touches_throw {A : Type} fields (e : js_error) :
  touches fields (throw e : Js A).
Proof. intros w. apply within_refl. Qed.

Lemma touches_escape {A : Type} fields : touches fields (escape : Js A).
Proof. intros w. apply within_refl. Qed.

Lemma touches_this fields : touches fields this.
Proof. intros w. apply within_refl. Qed.

Lemma touches_bind {A B : Type} fields (m : Js A) (k : A -> Js B) :
  touches fields m -> (forall a, touches fields (k a)) ->
  touches fields (m ≫= k).
Proof.
  intros Hm Hk w. rewrite exec_bind.
  specialize (Hm w). unfold exec in Hm.
  destruct (m w) as [[a | e |] w']; simpl in Hm; try assumption.
  eapply within_trans; [eassumption | apply Hk].
Qed.

Lemma touches_perform fields (e : event) : touches fields (perform e).
Proof. intros w f _. destruct f; reflexivity. Qed.

Lemma touches_log fields message level : touches fields (log message level).
Proof. apply touches_perform. Qed.

Lemma touches_assign_global fields identifier v :
  touches fields (assign_global identifier v).
Proof. intros w f _. destruct f; reflexivity. Qed.

Lemma touches_resolve fields identifier : touches fields (resolve identifier).
Proof.
  intros w. unfold exec, resolve.
  destruct (scope w !! identifier); apply within_refl.
Qed.

Lemma touches_typeof_defined fields identifier :
  touches fields (typeof_defined identifier).
Proof. intros w. apply within_refl. Qed.

Lemma touches_get_prop fields v k : touches fields (get_prop v k).
Proof. destruct v; first [apply touches_throw | apply touches_ret]. Qed.

Lemma touches_set_prop fields v k x : touches fields (set_prop v k x).
Proof.
  destruct v;
    first [apply touches_throw | apply touches_ret | apply touches_escape].
Qed.

(** The nine property writes, each with the one field it needs. *)
Ltac one_field :=
  let f := fresh "f" in
  let Hf := fresh "Hf" in
  intros ? ? f Hf; destruct f; try reflexivity; contradiction.

Lemma touches_set_initDone fields b :
  F_initDone ∈ fields -> touches fields (assign (set_initDone b)).
Proof. one_field. Qed.

Lemma touches_set_idCounter fields n :
  F_idCounter ∈ fields -> touches fields (assign (set_idCounter n)).
Proof. one_field. Qed.

Lemma touches_set_requests fields m :
  F_requests ∈ fields -> touches fields (assign (set_requests m)).
Proof. one_field. Qed.

Lemma touches_set_startCallback fields v :
  F_startCallback ∈ fields -> touches fields (assign (set_startCallback v)).
Proof. one_field. Qed.

Lemma touches_set_url fields v :
  F_url ∈ fields -> touches fields (assign (set_url v)).
Proof. one_field. Qed.

Lemma touches_set_io fields o :
  F_io ∈ fields -> touches fields (assign (set_io o)).
Proof. one_field. Qed.

Lemma touches_set_networkCommands fields m :
  F_networkCommands ∈ fields ->
  touches fields (assign (set_networkCommands m)).
Proof. one_field. Qed.

Lemma touches_set_networkCommandsIndex fields m :
  F_networkCommandsIndex ∈ fields ->
  touches fields (assign (set_networkCommandsIndex m)).
Proof. one_field. Qed.

Lemma touches_set_networkCommandsLookup fields m :
  F_networkCommandsLookup ∈ fields ->
  touches fields (assign (set_networkCommandsLookup m)).
Proof. one_field. Qed.

#[global] Hint Resolve touches_ret touches_skip touches_throw touches_escape
  touches_this touches_perform touches_log touches_assign_global
  touches_resolve touches_typeof_defined touches_get_prop touches_set_prop
  : touches.

Ltac in_fields := repeat constructor.

Ltac touches_step :=
  lazymatch goal with
  | |- touches _ (_ ≫= _) => apply touches_bind; [| intros ?]
  | |- touches _ (if ?b then _ else _) => destruct b
  | |- touches _ (match ?x with _ => _ end) => destruct x
  | |- touches _ (assign (set_initDone _)) =>
      apply touches_set_initDone; in_fields
  | |- touches _ (assign (set_idCounter _)) =>
      apply touches_set_idCounter; in_fields
  | |- touches _ (assign (set_requests _)) =>
      apply touches_set_requests; in_fields
  | |- touches _ (assign (set_startCallback _)) =>
      apply touches_set_startCallback; in_fields
  | |- touches _ (assign (set_url _)) => apply touches_set_url; in_fields
  | |- touches _ (assign (set_io _)) => apply touches_set_io; in_fields
  | |- touches _ (assign (set_networkCommands _)) =>
      apply touches_set_networkCommands; in_fields
  | |- touches _ (assign (set_networkCommandsIndex _)) =>
      apply touches_set_networkCommandsIndex; in_fields
  | |- touches _ (assign (set_networkCommandsLookup _)) =>
      apply touches_set_networkCommandsLookup; in_fields
  | |- touches _ _ => solve [auto with touches]
  end.

Ltac touches_all := repeat touches_step.

Lemma touches_io_send fields commandIndex data :
  touches fields (io_send commandIndex data).
Proof. unfold io_send. touches_all. Qed.

#[global] Hint Resolve touches_io_send : touches.

Lemma touches_send fields commandName data :
  touches fields (send commandName data).
Proof. unfold send. touches_all. Qed.

#[global] Hint Resolve touches_send : touches.

Lemma touches_define commandName callback :
  touches [F_networkCommands] (define commandName callback).
Proof. unfold define. touches_all. Qed.

Lemma touches_request env commandName data callback :
  touches [F_idCounter; F_requests] (request env commandName data callback).
Proof. unfold request, newIdHex. touches_all. Qed.

Lemma touches_response requestId data :
  touches [F_requests] (response requestId data).
Proof. unfold response. touches_all. Qed.

Lemma touches_start url callback :
  touches [F_startCallback; F_url; F_io] (start url callback).
Proof. unfold start. touches_all. Qed.

Lemma touches_call fields site f args : touches fields (call site f args).
Proof.
  unfold call. destruct f as [| | | | | | | [text | | | name]]; auto with touches.
Qed.

Lemma touches_handler_table_requests {A : Type} fields :
  touches fields (handler_table_requests : Js A).
Proof. unfold handler_table_requests. touches_all. Qed.

#[global] Hint Resolve touches_call touches_handler_table_requests : touches.

(** Run on the handler table, the two tracker methods cannot write the
    component. *)
Lemma touches_onRequest_dispatched fields data :
  touches fields (_onRequest ThisHandlerTable data).
Proof. unfold _onRequest, requests_set, emit. touches_all. Qed.

Lemma touches_onResponse_dispatched fields data :
  touches fields (_onResponse ThisHandlerTable data).
Proof. unfold _onResponse, requests_get, requests_delete. touches_all. Qed.

#[global] Hint Resolve touches_onRequest_dispatched
  touches_onResponse_dispatched : touches.

Lemma touches_apply_handler fields handler data :
  touches fields (apply_handler handler data).
Proof.
  unfold apply_handler.
  destruct handler as [| | | | | | | [text | | | name]]; auto with touches.
Qed.

#[global] Hint Resolve touches_apply_handler : touches.

Lemma touches_onMessageFromServer fields data :
  touches fields (_onMessageFromServer data).
Proof. unfold _onMessageFromServer, emit. touches_all. Qed.

Lemma touches_onConnectToServer fields : touches fields _onConnectToServer.
Proof. unfold _onConnectToServer, emit. touches_all. Qed.

Lemma touches_onDisconnectFromServer fields data :
  touches fields (_onDisconnectFromServer data).
Proof.
  unfold _onDisconnectFromServer, emit.
  apply touches_bind; [| intros ?; touches_all].
  destruct data; auto with touches. repeat case_match; auto with touches.
Qed.

Lemma touches_onError fields data : touches fields (_onError data).
Proof. unfold _onError. touches_all. Qed.

Lemma touches_fill_reverse_lookup t keys commandCount :
  touches [F_initDone; F_startCallback; F_networkCommands;
           F_networkCommandsIndex; F_networkCommandsLookup]
    (fill_reverse_lookup t keys commandCount).
Proof.
  revert commandCount.
  induction keys as [| i rest IH]; intros commandCount; simpl;
    unfold own_entry; touches_all; apply IH.
Qed.

#[global] Hint Resolve touches_fill_reverse_lookup : touches.

Lemma touches_handshake data :
  touches [F_initDone; F_startCallback; F_networkCommands;
           F_networkCommandsIndex; F_networkCommandsLookup] (handshake data).
Proof.
  unfold handshake, define. touches_all.
Qed.

Ltac not_in_fields :=
  let Hin := fresh "Hin" in
  intros Hin;
  repeat (apply elem_of_cons in Hin as [Hin | Hin]; [discriminate Hin |]);
  apply elem_of_nil in Hin; exact Hin.

(** Every action stays within its footprint. *)
Lemma step_within (a : action) (w : world) :
  within (footprint a w) w (step a w).
Proof.
  destruct a as [url cb | name cb | name data | env name data cb | id data
                 | | [ncmds | i p] | data | data]; simpl.
  - apply touches_start.
  - apply touches_define.
  - apply touches_send.
  - apply touches_request.
  - apply touches_response.
  - apply touches_onConnectToServer.
  - destruct (_initDone (self w)) eqn:Hdone.
    + rewrite exec_on_message
        by (unfold outcome; rewrite handshake_done by exact Hdone;
            reflexivity).
      unfold exec at 2. rewrite handshake_done by exact Hdone. simpl.
      apply touches_onMessageFromServer.
    + unfold on_message.
      apply touches_bind; [apply touches_handshake |].
      intros _. apply touches_onMessageFromServer.
  - rewrite exec_on_message
      by (unfold outcome; rewrite handshake_data_frame; reflexivity).
    unfold exec at 2. rewrite handshake_data_frame. simpl.
    apply touches_onMessageFromServer.
  - apply touches_onDisconnectFromServer.
  - apply touches_onError.
Qed.

(** X1.  Every action writes only the properties of its footprint:
    [send] and the socket events for connect, disconnect, error and
    ordinary frames write nothing of the component; [define] writes only
    the handler table; [request] only the counter and the request map;
    [response] only the request map; [start] only the callback, the url
    and the socket; a handshake frame writes the handshake flag, the
    callback and the three command tables the first time and nothing
    afterwards. *)
Theorem step_writes_only_footprint (a : action) (w : world) :
  within (footprint a w) w (step a w).
Proof.
  intros f Hf. apply (step_within a w). exact Hf.
Qed.

(** ** Sessions: what stays *)

(** X2.  Once the handshake is done, no sequence of socket events
    (connect, frames of either kind, disconnect, error) changes any
    property of the component: pending requests are neither added nor
    removed, and a disconnect resets nothing. *)
Theorem socket_events_leave_component
  (actions : list action) (w : world) :
  _initDone (self w) = true ->
  forallb is_socket_event actions = true ->
  self (run actions w) = self w.
Proof.
  revert w. induction actions as [| a actions IH]; intros w Hdone Hsock;
    simpl; [reflexivity |].
  simpl in Hsock. apply andb_prop in Hsock as [Ha Hsock].
  assert (Hstep : self (step a w) = self w).
  { apply within_nil. pose proof (step_within a w) as Hfp.
    destruct a as [| | | | | | [ncmds | i p] | |]; try discriminate Ha;
      simpl in Hfp; try rewrite Hdone in Hfp; exact Hfp. }
  rewrite IH; [exact Hstep | rewrite Hstep; exact Hdone | exact Hsock].
Qed.

Lemma request_bumps_counter env commandName data callback (w : world) :
  _idCounter (self (exec (request env commandName data callback) w)) =
  _idCounter (self w) + 1.
Proof.
  unfold request, newIdHex. run_js.
  destruct (_networkCommandsLookup (self w) !! "_igeRequest"); cbn;
    [destruct (_io (self w)) |]; reflexivity.
Qed.

(** X3.  The id counter counts the calls of [request]: after any session
    it has grown by exactly the number of [request] calls, whether or not
    anything could be sent, and nothing else moves it. *)
Theorem counter_counts_requests (actions : list action) (w : world) :
  _idCounter (self (run actions w)) =
  _idCounter (self w) + Z.of_nat (requests_issued actions).
Proof.
  revert w. induction actions as [| a actions IH]; intros w; simpl.
  - unfold requests_issued. simpl. lia.
  - rewrite IH. unfold requests_issued. simpl.
    destruct (is_request a) eqn:Hreq.
    + destruct a; try discriminate Hreq. simpl.
      rewrite request_bumps_counter. lia.
    + assert (Hsame : _idCounter (self (step a w)) = _idCounter (self w)).
      { apply (step_within a w F_idCounter).
        destruct a as [| | | | | | [ncmds | i p] | |]; try discriminate Hreq;
          simpl; try destruct (_initDone (self w)); not_in_fields. }
      rewrite Hsame. lia.
Qed.

(** After the handshake no action writes the flag or the two directions
    of the table. *)
Lemma run_keeps_tables (actions : list action) (w : world) :
  _initDone (self w) = true ->
  _initDone (self (run actions w)) = true /\
  _networkCommandsLookup (self (run actions w)) =
    _networkCommandsLookup (self w) /\
  _networkCommandsIndex (self (run actions w)) =
    _networkCommandsIndex (self w).
Proof.
  revert w. induction actions as [| a actions IH]; intros w Hdone; simpl;
    [auto |].
  pose proof (step_within a w) as Hfp.
  assert (Hnot : (F_initDone ∉ footprint a w) /\
                 (F_networkCommandsLookup ∉ footprint a w) /\
                 (F_networkCommandsIndex ∉ footprint a w)).
  { destruct a as [| | | | | | [ncmds | i p] | |]; simpl;
      try rewrite Hdone; repeat split; not_in_fields. }
  destruct Hnot as (N1 & N2 & N3).
  pose proof (Hfp _ N1) as H1. pose proof (Hfp _ N2) as H2.
  pose proof (Hfp _ N3) as H3. simpl in H1, H2, H3.
  destruct (IH (step a w)) as (I1 & I2 & I3); [congruence |].
  rewrite I2, I3, H2, H3. auto.
Qed.

(** X4.  Once the handshake is done the command table is fixed in both
    directions: no session, with further handshake frames and further
    calls of [start] in it, changes the name-to-index table, the
    index-to-name table or the handshake flag. *)
Theorem command_table_is_fixed (actions : list action) (w : world) :
  _initDone (self w) = true ->
  _initDone (self (run actions w)) = true /\
  _networkCommandsLookup (self (run actions w)) =
    _networkCommandsLookup (self w) /\
  _networkCommandsIndex (self (run actions w)) =
    _networkCommandsIndex (self w).
Proof.
  intros Hdone.
  destruct (run_keeps_tables actions w Hdone) as (H1 & H2 & H3).
  repeat split; assumption.
Qed.

Lemma socket_events_leave_component_witness :
  _initDone (self awaiting) = true /\
  self (run [SocketMessage (DataFrame 4 reply);
             SocketMessage (DataFrame 3 inbound);
             SocketDisconnect (VStr "booted");
             SocketMessage (InitFrame ∅)] awaiting) = self awaiting.
Proof.
  split; [reflexivity |].
  apply (socket_events_leave_component
           [SocketMessage (DataFrame 4 reply);
            SocketMessage (DataFrame 3 inbound);
            SocketDisconnect (VStr "booted");
            SocketMessage (InitFrame ∅)] awaiting); reflexivity.
Defined.

Lemma command_table_is_fixed_witness :
  _initDone (self playing) = true /\
  _networkCommandsLookup
    (self (run [CallStart VUndef VUndef; SocketMessage (InitFrame ∅)]
             playing)) = sample_table.
Proof.
  split; [reflexivity |].
  refine (proj1 (proj2 (command_table_is_fixed
                          [CallStart VUndef VUndef;
                           SocketMessage (InitFrame ∅)] playing _))).
  reflexivity.
Defined.

(** ** The reverse table *)

(** An own property is one of the entries. *)
Lemma lookup_entries (t : table) (name : string) (i : Z) :
  t !! name = Some i -> (name, i) ∈ entries t.
Proof.
  unfold lookup, table_lookup. destruct t as [l]. simpl.
  induction l as [| [k v] rest IH]; simpl; [discriminate |].
  destruct (String.eqb k name) eqn:Heq.
  - apply String.eqb_eq in Heq. intros [= ->]. subst. left.
  - intros H. right. apply IH, H.
Qed.

(** An entry that inverts the table is replaced only by another that
    does. *)
Lemma reverse_entries_keeps_inverse (t : table) (keys : list string)
  (index : gmap Z string) (i : Z) (name : string) :
  index !! i = Some name -> t !! name = Some i ->
  exists name', reverse_entries t keys index !! i = Some name' /\
                t !! name' = Some i.
Proof.
  revert index name.
  induction keys as [| k rest IH]; intros index name Hi Hname; simpl.
  - eauto.
  - destruct (t !! k) as [commandIndex |] eqn:Hk; [| eauto].
    destruct (decide (commandIndex = i)) as [-> | Hne].
    + apply (IH _ k); [apply lookup_insert_eq | exact Hk].
    + apply (IH _ name); [| exact Hname].
      rewrite lookup_insert_ne by exact Hne. exact Hi.
Qed.

(** What lines 49 to 54 make of the reverse table: entries that were
    there or that invert the table; an entry for the index of every name
    visited; the old entry wherever the table does not use the index. *)
Lemma reverse_entries_spec (t : table) (keys : list string)
  (index : gmap Z string) :
  (forall i name,
     reverse_entries t keys index !! i = Some name ->
     index !! i = Some name \/ t !! name = Some i) /\
  (forall name i,
     name ∈ keys -> t !! name = Some i ->
     exists name', reverse_entries t keys index !! i = Some name' /\
                   t !! name' = Some i) /\
  (forall i,
     (forall name, t !! name <> Some i) ->
     reverse_entries t keys index !! i = index !! i).
Proof.
  revert index. induction keys as [| k rest IH]; intros index; simpl.
  - split; [auto | split; [| auto]].
    intros name i Hin. inversion Hin.
  - destruct (t !! k) as [commandIndex |] eqn:Hk.
    + destruct (IH (<[commandIndex := k]> index)) as (IH1 & IH2 & IH3).
      split; [| split].
      * intros i name H. destruct (IH1 i name H) as [Hold | Hnew];
          [| right; exact Hnew].
        destruct (decide (commandIndex = i)) as [-> | Hne].
        { rewrite lookup_insert_eq in Hold. injection Hold as <-.
          right. exact Hk. }
        { rewrite lookup_insert_ne in Hold by exact Hne. left. exact Hold. }
      * intros name i Hin Hname.
        apply elem_of_cons in Hin as [-> | Hin]; [| eauto].
        assert (commandIndex = i) as -> by congruence.
        apply (reverse_entries_keeps_inverse t rest _ i k);
          [apply lookup_insert_eq | exact Hk].
      * intros i Hnone. rewrite IH3 by exact Hnone.
        apply lookup_insert_ne. intros ->. apply (Hnone k), Hk.
    + destruct (IH index) as (IH1 & IH2 & IH3).
      split; [exact IH1 | split; [| exact IH3]].
      intros name i Hin Hname.
      apply elem_of_cons in Hin as [-> | Hin]; [congruence | eauto].
Qed.

(** The component after a first handshake frame whose table declares no
    command named [hasOwnProperty]: flag set, table installed, reverse
    table filled, tracker handlers bound where the table declares them. *)
Lemma handshake_tables (ncmds : table) (w : world) :
  _initDone (self w) = false ->
  ncmds !! "hasOwnProperty" = None ->
  let w' := step (SocketMessage (InitFrame ncmds)) w in
  _initDone (self w') = true /\
  _networkCommandsLookup (self w') = ncmds /\
  _networkCommandsIndex (self w') =
    reverse_entries ncmds (own_keys ncmds) (_networkCommandsIndex (self w)) /\
  _networkCommands (self w') =
    with_tracker_handlers ncmds (_networkCommands (self w)).
Proof.
  intros Hinit Hown. simpl. unfold on_message. rewrite exec_bind.
  assert (H : let w1 := exec (handshake (InitFrame ncmds)) w in
              _initDone (self w1) = true /\
              _networkCommandsLookup (self w1) = ncmds /\
              _networkCommandsIndex (self w1) =
                reverse_entries ncmds (own_keys ncmds)
                  (_networkCommandsIndex (self w)) /\
              _networkCommands (self w1) =
                with_tracker_handlers ncmds (_networkCommands (self w))).
  { run_js. rewrite Hinit. cbn.
    rewrite fill_reverse_lookup_runs by exact Hown. cbn.
    unfold with_tracker_handlers.
    destruct (ncmds !! "_igeRequest"); cbn;
      destruct (ncmds !! "_igeResponse"); cbn;
      destruct (_startCallback (self w)) as [| | | | | | | [text | | | name]];
      cbn; auto. }
  unfold exec in H.
  destruct (handshake (InitFrame ncmds) w) as [[[] | e |] w1]; simpl in H;
    try exact H.
  pose proof (touches_onMessageFromServer [] (InitFrame ncmds) w1) as Hd.
  apply within_nil in Hd. rewrite Hd. exact H.
Qed.

(** After a first handshake frame, whatever its table, the reverse table
    is the old one with the loop's entries, or the old one. *)
Lemma handshake_reverse_table (ncmds : table) (w : world) :
  _initDone (self w) = false ->
  let w' := step (SocketMessage (InitFrame ncmds)) w in
  _networkCommandsIndex (self w') =
    reverse_entries ncmds (own_keys ncmds) (_networkCommandsIndex (self w)) \/
  _networkCommandsIndex (self w') = _networkCommandsIndex (self w).
Proof.
  intros Hinit. destruct (ncmds !! "hasOwnProperty") as [i |] eqn:Hown.
  - right. simpl. unfold on_message. rewrite exec_bind.
    rewrite (handshake_aborts ncmds i) by assumption. reflexivity.
  - left. apply handshake_tables; assumption.
Qed.

(** The reverse entry of a declared command, for a table without shared
    indices. *)
Lemma reverse_entry_after_handshake
  (w : world) (ncmds : table) (later : list action)
  (name : string) (commandIndex : Z) :
  _initDone (self w) = false ->
  ncmds !! "hasOwnProperty" = None ->
  one_name_per_index ncmds ->
  ncmds !! name = Some commandIndex ->
  _networkCommandsIndex
    (self (run later (step (SocketMessage (InitFrame ncmds)) w)))
    !! commandIndex = Some name.
Proof.
  intros Hinit Hown Hinj Hname.
  destruct (handshake_tables ncmds w Hinit Hown) as (H1 & _ & H3 & _).
  destruct (run_keeps_tables later _ H1) as (_ & _ & Hfixed).
  rewrite Hfixed, H3.
  destruct (reverse_entries_spec ncmds (own_keys ncmds)
              (_networkCommandsIndex (self w)))
    as (_ & Hall & _).
  destruct (Hall name commandIndex (own_keys_lookup _ _ _ Hname) Hname)
    as (name' & Hr & Hm).
  rewrite Hr. f_equal. eapply Hinj; eassumption.
Qed.

(** X5.  The handshake builds the inverse of the table: when no two
    commands share an index and none is named [hasOwnProperty], then from
    the first handshake frame on, and whatever happens later, the reverse
    table maps the index of every declared command back to its name. *)
Theorem reverse_table_inverts_table
  (w : world) (ncmds : table) (later : list action)
  (name : string) (commandIndex : Z) :
  _initDone (self w) = false ->
  ncmds !! "hasOwnProperty" = None ->
  one_name_per_index ncmds ->
  ncmds !! name = Some commandIndex ->
  _networkCommandsIndex
    (self (run later (step (SocketMessage (InitFrame ncmds)) w)))
    !! commandIndex = Some name.
Proof.
  intros Hinit Hown Hone Hname.
  apply reverse_entry_after_handshake; assumption.
Qed.

(** X6.  The handshake adds to the reverse table and does not clear it:
    after the first handshake frame an entry of the reverse table is
    either an entry it had before or the inverse of a table entry, and an
    index the table does not use keeps the entry it had. *)
Theorem reverse_table_keeps_old_entries
  (w : world) (ncmds : table) :
  _initDone (self w) = false ->
  let w' := step (SocketMessage (InitFrame ncmds)) w in
  (forall i name,
     _networkCommandsIndex (self w') !! i = Some name ->
     _networkCommandsIndex (self w) !! i = Some name \/
     ncmds !! name = Some i) /\
  (forall i,
     (forall name, ncmds !! name <> Some i) ->
     _networkCommandsIndex (self w') !! i =
     _networkCommandsIndex (self w) !! i).
Proof.
  intros Hinit w'.
  destruct (handshake_reverse_table ncmds w Hinit) as [H3 | H3];
    fold w' in H3; rewrite H3.
  - destruct (reverse_entries_spec ncmds (own_keys ncmds)
                (_networkCommandsIndex (self w)))
      as (Hsound & _ & Hkeep).
    split; assumption.
  - split; [intros i name H; left; exact H | reflexivity].
Qed.

Lemma distinct_indices_one_name (ncmds : table) :
  NoDup (entries ncmds).*2 -> one_name_per_index ncmds.
Proof.
  intros Hnd name name' i H1 H2.
  apply lookup_entries in H1, H2.
  revert Hnd H1 H2. generalize (entries ncmds) as l.
  induction l as [| [x y] l IH]; intros Hnd H1 H2.
  - apply elem_of_nil in H1. contradiction.
  - simpl in Hnd. apply NoDup_cons in Hnd as [Hnotin Hnd].
    apply elem_of_cons in H1 as [H1 | H1], H2 as [H2 | H2].
    + congruence.
    + injection H1 as -> ->. exfalso. apply Hnotin.
      apply (list_elem_of_fmap_2 snd _ _ H2).
    + injection H2 as -> ->. exfalso. apply Hnotin.
      apply (list_elem_of_fmap_2 snd _ _ H1).
    + apply IH; assumption.
Qed.

Lemma sample_table_one_name_per_index : one_name_per_index sample_table.
Proof.
  apply distinct_indices_one_name.
  apply (bool_decide_unpack _). vm_compute. exact I.
Qed.

Lemma reverse_table_inverts_table_witness :
  _initDone (self connecting) = false /\
  sample_table !! "hasOwnProperty" = None /\
  one_name_per_index sample_table /\
  sample_table !! "chat" = Some 2 /\
  _networkCommandsIndex
    (self (run [SocketDisconnect VNull; SocketMessage (InitFrame ∅)]
             (step (SocketMessage (InitFrame sample_table)) connecting)))
    !! 2 = Some "chat".
Proof.
  split; [reflexivity |]. split; [reflexivity |].
  split; [exact sample_table_one_name_per_index |].
  split; [reflexivity |].
  apply (reverse_table_inverts_table connecting sample_table
           [SocketDisconnect VNull; SocketMessage (InitFrame ∅)] "chat" 2).
  - reflexivity.
  - reflexivity.
  - exact sample_table_one_name_per_index.
  - reflexivity.
Defined.

Lemma reverse_table_keeps_old_entries_witness :
  _initDone (self connecting) = false /\
  _networkCommandsIndex
    (self (step (SocketMessage (InitFrame sample_table)) connecting)) !! 9 =
  _networkCommandsIndex (self connecting) !! 9.
Proof.
  split; [reflexivity |].
  apply (proj2 (reverse_table_keeps_old_entries connecting sample_table
                  eq_refl)).
  intros name Hname. apply lookup_entries in Hname.
  vm_compute in Hname.
  repeat (apply elem_of_cons in Hname as [Hname | Hname];
          [discriminate Hname |]).
  apply elem_of_nil in Hname. exact Hname.
Defined.

(** ** Dispatch *)

Ltac run_dispatch :=
  unfold on_message, handshake, _onMessageFromServer, read, apply_handler,
    call, emit, this, perform, skip, throw, mbind, Js_bind, mret, Js_ret;
  cbn; known_names; cbn; unfold mbind, option_bind.





(** ** The handshake and the handler table *)

(** X9.  The first handshake frame, for a table that declares no command
    named [hasOwnProperty], binds the two tracker handlers exactly for the
    reserved commands its table declares, over whatever was bound under
    those names, and leaves every other binding alone: with [_igeRequest]
    undeclared the name keeps its old binding, and likewise for
    [_igeResponse]. *)
Theorem tracker_handlers_follow_table (w : world) (ncmds : table) :
  _initDone (self w) = false ->
  ncmds !! "hasOwnProperty" = None ->
  let w' := step (SocketMessage (InitFrame ncmds)) w in
  _networkCommands (self w') !! "_igeRequest" =
    match ncmds !! "_igeRequest" with
    | Some _ => Some (VFun Method_onRequest)
    | None => _networkCommands (self w) !! "_igeRequest"
    end /\
  _networkCommands (self w') !! "_igeResponse" =
    match ncmds !! "_igeResponse" with
    | Some _ => Some (VFun Method_onResponse)
    | None => _networkCommands (self w) !! "_igeResponse"
    end /\
  (forall name,
     name <> "_igeRequest" -> name <> "_igeResponse" ->
     _networkCommands (self w') !! name = _networkCommands (self w) !! name).
Proof.
  intros Hinit Hown w'.
  destruct (handshake_tables ncmds w Hinit Hown) as (_ & _ & _ & H4).
  fold w' in H4. rewrite H4. unfold with_tracker_handlers.
  destruct (ncmds !! "_igeRequest"), (ncmds !! "_igeResponse");
    repeat split; intros;
    rewrite ?lookup_insert_eq, ?lookup_insert_ne by congruence;
    rewrite ?lookup_insert_eq; reflexivity.
Qed.

Lemma tracker_handlers_follow_table_witness :
  _initDone (self connecting) = false /\
  ({[ "move" := 1 ]} : table) !! "hasOwnProperty" = None /\
  _networkCommands
    (self (step (SocketMessage (InitFrame {[ "move" := 1 ]})) connecting))
    !! "_igeRequest" = None.
Proof.
  split; [reflexivity |]. split; [reflexivity |].
  refine (eq_trans
            (proj1 (tracker_handlers_follow_table connecting
                      {[ "move" := 1 ]} eq_refl eq_refl)) _).
  reflexivity.
Defined.

(** X10.  A handshake frame that arrives after the handshake is done is
    handled as an ordinary frame without index: with nothing bound under
    the name [undefined], it changes nothing and emits one event with
    neither name nor data. *)
Theorem late_handshake_frame_is_ordinary
  (w : world) (ncmds : table) :
  _initDone (self w) = true ->
  _networkCommands (self w) !! "undefined" = None ->
  on_message (InitFrame ncmds) w =
    (Normal tt,
     {| self := self w; scope := scope w;
        trace := trace w ++ [Emit VUndef VUndef] |}).
Proof.
  intros Hdone Hnone. run_dispatch. rewrite Hdone. cbn. rewrite Hnone.
  reflexivity.
Qed.

Lemma late_handshake_frame_is_ordinary_witness :
  _initDone (self playing) = true /\
  _networkCommands (self playing) !! "undefined" = None /\
  on_message (InitFrame {[ "jump" := 9 ]}) playing =
    (Normal tt,
     {| self := self playing; scope := scope playing;
        trace := trace playing ++ [Emit VUndef VUndef] |}).
Proof.
  split; [reflexivity |]. split; [reflexivity |].
  apply (late_handshake_frame_is_ordinary playing {[ "jump" := 9 ]});
    reflexivity.
Defined.

(** ** Starting with a transport *)

(** With [WebSocket] available, [start(url, callback)] stores the
    callback, stores the url when one is given, logs the connecting
    message, creates the socket with the argument as it is and registers
    the connect, message, disconnect and error listeners, in that
    order. *)
Lemma start_on_websocket (url callback : value) (w : world) :
  is_defined "WebSocket" w = true ->
  start url callback w =
    (Normal tt,
     {| self := set_io (Some url)
                  (if is_undefined url
                   then set_startCallback callback (self w)
                   else set_url url (set_startCallback callback (self w)));
        scope := scope w;
        trace := trace w ++
                 [Log LogInfo
                    (ConnectingTo (if is_undefined url then _url (self w)
                                   else url));
                  NetIoClient url;
                  NetIoOn "connect"; NetIoOn "message";
                  NetIoOn "disconnect"; NetIoOn "error"] |}).
Proof.
  unfold start, typeof_defined, is_defined, log, this, assign, perform, skip,
    mbind, Js_bind, mret, Js_ret.
  destruct (is_undefined url); cbn;
    destruct (scope w !! "WebSocket") as [v |]; cbn;
    intros Hws; rewrite ?Hws; try discriminate Hws; cbn;
    rewrite <- !app_assoc; reflexivity.
Qed.

(** X11.  Starting again without a url does not reconnect to the url
    given before.  After [start(url, ...)] with a url, and with
    [WebSocket] available, [start(undefined, callback)] keeps the stored
    url and logs it, but creates the new socket with [undefined]; it
    replaces the start callback and registers the four listeners on the
    new socket. *)
Theorem restart_without_url_opens_undefined
  (url callback1 callback2 : value) (w : world) :
  is_defined "WebSocket" w = true ->
  is_undefined url = false ->
  let first := exec (start url callback1) w in
  let second := exec (start VUndef callback2) first in
  events_since first second =
    [Log LogInfo (ConnectingTo url); NetIoClient VUndef;
     NetIoOn "connect"; NetIoOn "message";
     NetIoOn "disconnect"; NetIoOn "error"] /\
  _url (self second) = url /\
  _io (self second) = Some VUndef /\
  _startCallback (self second) = callback2.
Proof.
  intros Hws Hurl first second.
  assert (Hfirst : first =
            {| self := set_io (Some url)
                         (set_url url (set_startCallback callback1 (self w)));
               scope := scope w;
               trace := trace w ++
                        [Log LogInfo (ConnectingTo url); NetIoClient url;
                         NetIoOn "connect"; NetIoOn "message";
                         NetIoOn "disconnect"; NetIoOn "error"] |}).
  { unfold first, exec. rewrite (start_on_websocket url callback1 w Hws).
    rewrite Hurl. reflexivity. }
  assert (Hws' : is_defined "WebSocket" first = true).
  { rewrite Hfirst. exact Hws. }
  unfold second, exec, events_since.
  rewrite (start_on_websocket VUndef callback2 first Hws'). simpl.
  rewrite drop_app_length. rewrite Hfirst. repeat split.
Qed.

Lemma restart_without_url_opens_undefined_witness :
  is_defined "WebSocket" browser = true /\
  is_undefined (VStr "ws://play.example:2000") = false /\
  _io (self (exec (start VUndef VUndef)
               (exec (start (VStr "ws://play.example:2000") VUndef) browser)))
    = Some VUndef.
Proof.
  split; [reflexivity |]. split; [reflexivity |].
  apply (restart_without_url_opens_undefined (VStr "ws://play.example:2000")
           VUndef VUndef browser); reflexivity.
Defined.

(** ** Disconnects and errors *)

Lemma disconnect_notice (data : value) :
  match data with
  | VStr "booted" => log ServerRejectedConnection LogWarning
  | _ => log DisconnectedFromServer LogInfo
  end =
  if is_booted data then log ServerRejectedConnection LogWarning
  else log DisconnectedFromServer LogInfo.
Proof.
  destruct data as [| | | | reason | | |]; try reflexivity. simpl.
  destruct (String.eqb_spec reason "booted") as [-> | Hne]; [reflexivity |].
  repeat case_match; try reflexivity. subst. contradiction.
Qed.

(** X12.  Every disconnect leaves the component as it is and emits the
    event [disconnected] once, after one notice: the rejection warning
    when the reason is the string [booted], the plain notice for every
    other reason. *)
Theorem disconnect_notice_and_event (data : value) (w : world) :
  on_disconnect data w =
    (Normal tt,
     {| self := self w; scope := scope w;
        trace := trace w ++
                 [if is_booted data
                  then Log LogWarning ServerRejectedConnection
                  else Log LogInfo DisconnectedFromServer;
                  Emit (VStr "disconnected") VUndef] |}).
Proof.
  unfold on_disconnect, _onDisconnectFromServer.
  rewrite disconnect_notice.
  unfold emit, log, perform, mbind, Js_bind.
  destruct (is_booted data); cbn; rewrite <- app_assoc; reflexivity.
Qed.

(** An error from the socket is logged and nothing more: no event
    is emitted and nothing changes.  Delivered without data it ends in a
    TypeError before anything is logged. *)
Lemma error_is_only_logged (data : value) (w : world) :
  on_error data w =
    match data with
    | VUndef | VNull => (Throw TypeError, w)
    | _ =>
        (Normal tt,
         {| self := self w; scope := scope w;
            trace := trace w ++
                     [Log LogError
                        (ErrorWithConnection
                           match data with
                           | VObj props =>
                               default VUndef (assoc_get props "reason")
                           | _ => VUndef
                           end)] |})
    end.
Proof.
  unfold on_error, _onError, get_prop, log, perform, throw,
    mbind, Js_bind, mret, Js_ret.
  destruct data; reflexivity.
Qed.

(** ** The request tracker: how calls compose *)

Lemma request_stores_entry env commandName data callback (w : world) :
  _requests (self (exec (request env commandName data callback) w)) =
  <[toString16 env (_idCounter (self w) + 1) :=
      VObj [("id", VStr (toString16 env (_idCounter (self w) + 1)));
            ("cmd", commandName); ("data", data); ("callback", callback);
            ("timestamp", VNum (getTime env))]]> (_requests (self w)).
Proof.
  unfold request, newIdHex. run_js.
  destruct (_networkCommandsLookup (self w) !! "_igeRequest"); cbn;
    [destruct (_io (self w)) |]; reflexivity.
Qed.

(** X13.  [request] does not look whether the id is in use.  When the
    runtime produces for a second request the id text it produced for the
    first, the second entry replaces the first in the map: the first
    request, continuation included, is gone, and the map holds one entry
    more than before the two calls, not two. *)
Theorem repeated_id_replaces_request
  (env1 env2 : ambient) (name1 data1 callback1 name2 data2 callback2 : value)
  (w : world) :
  toString16 env2 (_idCounter (self w) + 2) =
    toString16 env1 (_idCounter (self w) + 1) ->
  let id := toString16 env1 (_idCounter (self w) + 1) in
  _requests
    (self (exec (request env2 name2 data2 callback2)
             (exec (request env1 name1 data1 callback1) w))) =
  <[id := VObj [("id", VStr id); ("cmd", name2); ("data", data2);
                ("callback", callback2);
                ("timestamp", VNum (getTime env2))]]> (_requests (self w)).
Proof.
  intros Hsame id.
  rewrite request_stores_entry, request_bumps_counter, request_stores_entry.
  replace (_idCounter (self w) + 1 + 1) with (_idCounter (self w) + 2) by lia.
  rewrite Hsame. fold id. apply insert_insert_eq.
Qed.

(** X14.  [response] does not tell the client's own requests from the
    server's.  After [request], on a client with both reserved commands
    declared and a socket, [response] with the id just generated sends a
    response frame (its [cmd] undefined) and removes the entry: if the id
    was new, the map is back to what it was before the request, and the
    continuation is forgotten. *)
Theorem response_forgets_own_request
  (env : ambient) (commandName data callback answer io : value)
  (i j : Z) (w : world) :
  _requests (self w) !! toString16 env (_idCounter (self w) + 1) = None ->
  _networkCommandsLookup (self w) !! "_igeRequest" = Some i ->
  _networkCommandsLookup (self w) !! "_igeResponse" = Some j ->
  _io (self w) = Some io ->
  let id := toString16 env (_idCounter (self w) + 1) in
  let w' := exec (response (VStr id) answer)
              (exec (request env commandName data callback) w) in
  _requests (self w') = _requests (self w) /\
  trace w' =
    (trace w ++
     [NetIoSend i (VObj [("id", VStr id); ("cmd", commandName);
                         ("data", data)]);
      NetIoSend j (VObj [("id", VStr id); ("cmd", VUndef);
                         ("data", answer)])])%list.
Proof.
  intros Hnew Hi Hj Hio id w'. unfold w'.
  unfold request, newIdHex, response, read, get_prop. run_js.
  rewrite Hi. cbn. rewrite Hio. cbn. rewrite lookup_insert_eq. cbn.
  rewrite Hj. cbn. rewrite Hio. cbn. split.
  - apply delete_insert_id. exact Hnew.
  - rewrite <- app_assoc. reflexivity.
Qed.

(** X15.  [response] removes the tracked request even when it can send
    nothing: with [_igeResponse] not in the table, the call logs the error
    of line 122, hands nothing to the socket, and the entry is gone. *)
Theorem response_undeclared_still_forgets
  (requestId data req : value) (w : world) :
  _requests (self w) !! to_key requestId = Some req ->
  truthy req = true ->
  _networkCommandsLookup (self w) !! "_igeResponse" = None ->
  response requestId data w =
    (Normal tt,
     {| self := set_requests (delete (to_key requestId) (_requests (self w)))
                  (self w);
        scope := scope w;
        trace := trace w ++
                 [Log LogError (CannotSendUndefined (VStr "_igeResponse"))] |}).
Proof.
  intros Hreq Htruthy Hnone.
  unfold response, read, send, table_read, get_prop, log, this, assign,
    perform, mbind, Js_bind, mret, Js_ret.
  cbn. rewrite Hreq. cbn. rewrite Htruthy.
  destruct req; try discriminate Htruthy; cbn; rewrite Hnone; reflexivity.
Qed.

(** ** Handlers and the table *)

Lemma define_binds_declared (commandName callback : value) (w : world)
  (name : string) :
  is_Some (_networkCommands (self (exec (define commandName callback) w))
             !! name) ->
  is_Some (_networkCommands (self w) !! name) \/
  is_Some (table_read (_networkCommandsLookup (self w)) name).
Proof.
  unfold define.
  destruct (negb (is_undefined commandName) && negb (is_undefined callback));
    unfold exec, log, this, assign, perform, mbind, Js_bind, mret, Js_ret;
    cbn; [| auto].
  destruct (table_read (_networkCommandsLookup (self w)) (to_key commandName))
    eqn:Hk; cbn; [| auto].
  destruct (decide (to_key commandName = name)) as [<- | Hne].
  - intros _. right. rewrite Hk. eauto.
  - rewrite lookup_insert_ne by exact Hne. auto.
Qed.

(** What an empty table finds, every table finds. *)
Lemma table_read_empty (t : table) (name : string) :
  is_Some (table_read ∅ name) -> is_Some (table_read t name).
Proof.
  unfold table_read. change ((∅ : table) !! name) with (@None Z).
  destruct (t !! name); [eauto |]. auto.
Qed.

Lemma step_handlers_in_step (a : action) (w : world) :
  handlers_in_step w -> handlers_in_step (step a w).
Proof.
  intros Hinv. pose proof (step_within a w) as Hfp.
  destruct a as [url cb | name cb | name data | env name data cb | id data
                 | | [ncmds | i p] | data | data];
    try (assert (H1 : unchanged F_initDone (self w) (self (step _ w)))
           by (apply Hfp; simpl; not_in_fields);
         assert (H2 : unchanged F_networkCommands (self w) (self (step _ w)))
           by (apply Hfp; simpl; not_in_fields);
         assert (H3 : unchanged F_networkCommandsLookup (self w)
                        (self (step _ w)))
           by (apply Hfp; simpl; not_in_fields);
         unfold unchanged in H1, H2, H3;
         unfold handlers_in_step, bound_are_declared;
         rewrite H1, H2, H3; exact Hinv).
  - (* define *)
    assert (H1 : unchanged F_initDone (self w)
                   (self (step (CallDefine name cb) w)))
      by (apply Hfp; simpl; not_in_fields).
    assert (H3 : unchanged F_networkCommandsLookup (self w)
                   (self (step (CallDefine name cb) w)))
      by (apply Hfp; simpl; not_in_fields).
    unfold unchanged in H1, H3. unfold handlers_in_step in *.
    rewrite H1, H3. simpl step in *.
    destruct Hinv as [Hbound Hempty]. split; [| exact Hempty].
    intros n Hn. rewrite H3.
    destruct (define_binds_declared name cb w n Hn) as [Hold | Hnew];
      [apply Hbound, Hold | exact Hnew].
  - (* handshake frame *)
    unfold handlers_in_step in *.
    destruct (_initDone (self w)) eqn:Hdone.
    + unfold footprint in Hfp. rewrite Hdone in Hfp.
      apply within_nil in Hfp.
      rewrite Hfp, Hdone. exact Hinv.
    + destruct Hinv as [Hbound Hempty]. specialize (Hempty eq_refl).
      assert (Hold : forall n,
                 is_Some (_networkCommands (self w) !! n) ->
                 is_Some (table_read ncmds n)).
      { intros n Hn. apply table_read_empty. rewrite <- Hempty.
        apply Hbound, Hn. }
      destruct (ncmds !! "hasOwnProperty") as [i |] eqn:Hown.
      * simpl. unfold on_message. rewrite exec_bind.
        rewrite (handshake_aborts ncmds i) by assumption. simpl.
        split; [exact Hold | discriminate].
      * destruct (handshake_tables ncmds w Hdone Hown)
          as (T1 & T2 & _ & T4).
        rewrite T1. split; [| discriminate].
        intros n Hn. rewrite T2. rewrite T4 in Hn.
        unfold with_tracker_handlers in Hn.
        destruct (ncmds !! "_igeRequest") eqn:Hq,
                 (ncmds !! "_igeResponse") eqn:Hp;
          repeat match type of Hn with
                 | is_Some (<[?k := _]> _ !! n) =>
                     destruct (decide (k = n)) as [<- | ?];
                     [unfold table_read; rewrite ?Hq, ?Hp; eauto
                     | rewrite lookup_insert_ne in Hn by assumption]
                 end;
          apply Hold, Hn.
Qed.

(** X16.  A handler is only ever bound under a name that line 98 finds in
    the command table: a declared command, or the name of a member every
    object inherits.  Starting from a component that has not seen a
    handshake and whose handler table and command table are empty, after
    any session every name a handler is bound under is such a name. *)
Theorem handlers_only_for_declared_commands
  (actions : list action) (w : world) :
  _initDone (self w) = false ->
  _networkCommands (self w) = ∅ ->
  _networkCommandsLookup (self w) = ∅ ->
  bound_are_declared (self (run actions w)).
Proof.
  intros Hinit Hh Hl.
  assert (Hinv : handlers_in_step (run actions w)).
  { assert (H0 : handlers_in_step w).
    { unfold handlers_in_step. split; [| auto].
      intros n [x Hx]. rewrite Hh, lookup_empty in Hx. discriminate Hx. }
    clear Hinit Hh Hl. revert w H0.
    induction actions as [| a actions IH]; intros w H0; simpl;
      [exact H0 | apply IH, step_handlers_in_step, H0]. }
  apply Hinv.
Qed.

Lemma handlers_only_for_declared_commands_witness :
  _initDone (self browser) = false /\
  _networkCommands (self browser) = ∅ /\
  _networkCommandsLookup (self browser) = ∅ /\
  bound_are_declared
    (self (run [CallDefine (VStr "move") (VFun (Collaborator "early"));
                CallStart VUndef VUndef;
                SocketMessage (InitFrame sample_table);
                CallDefine (VStr "jump") (VFun (Collaborator "onJump"));
                CallDefine (VStr "chat") (VFun (Collaborator "onChat"))]
             browser)).
Proof.
  split; [reflexivity |]. split; [reflexivity |]. split; [reflexivity |].
  apply (handlers_only_for_declared_commands
           [CallDefine (VStr "move") (VFun (Collaborator "early"));
            CallStart VUndef VUndef;
            SocketMessage (InitFrame sample_table);
            CallDefine (VStr "jump") (VFun (Collaborator "onJump"));
            CallDefine (VStr "chat") (VFun (Collaborator "onChat"))]
           browser); reflexivity.
Defined.

(** ** What each operation can add to the trace *)

Create HintDb adds.

Lemma adds_nothing {A : Type} (P : event -> Prop) (m : Js A) :
  (forall w, trace (exec m w) = trace w) -> adds P m.
Proof.
  intros H w. exists []. rewrite H, app_nil_r.
  split; [reflexivity | constructor].
Qed.

Lemma adds_ret {A : Type} P (a : A) : adds P (mret a : Js A).
Proof. apply adds_nothing. reflexivity. Qed.

Lemma adds_skip P : adds P skip.
Proof. apply adds_ret. Qed.

Lemma adds_throw {A : Type} P (e : js_error) : adds P (throw e : Js A).
Proof. apply adds_nothing. reflexivity. Qed.

Lemma adds_escape {A : Type} P : adds P (escape : Js A).
Proof. apply adds_nothing. reflexivity. Qed.

Lemma adds_this P : adds P this.
Proof. apply adds_nothing. reflexivity. Qed.

Lemma adds_assign P f : adds P (assign f).
Proof. apply adds_nothing. reflexivity. Qed.

Lemma adds_assign_global P identifier v : adds P (assign_global identifier v).
Proof. apply adds_nothing. reflexivity. Qed.

Lemma adds_resolve P identifier : adds P (resolve identifier).
Proof.
  apply adds_nothing. intros w. unfold exec, resolve.
  destruct (scope w !! identifier); reflexivity.
Qed.

Lemma adds_typeof_defined P identifier : adds P (typeof_defined identifier).
Proof. apply adds_nothing. reflexivity. Qed.

Lemma adds_get_prop P v k : adds P (get_prop v k).
Proof. destruct v; first [apply adds_throw | apply adds_ret]. Qed.

Lemma adds_set_prop P v k x : adds P (set_prop v k x).
Proof.
  destruct v; first [apply adds_throw | apply adds_ret | apply adds_escape].
Qed.

Lemma adds_perform (P : event -> Prop) (e : event) : P e -> adds P (perform e).
Proof.
  intros He w. exists [e]. split; [reflexivity | repeat constructor; exact He].
Qed.

Lemma adds_bind {A B : Type} P (m : Js A) (k : A -> Js B) :
  adds P m -> (forall a, adds P (k a)) -> adds P (m ≫= k).
Proof.
  intros Hm Hk w. rewrite exec_bind.
  destruct (Hm w) as (events & Htrace & Hall). unfold exec in Htrace.
  destruct (m w) as [[a | e |] w']; simpl in Htrace; eauto.
  destruct (Hk a w') as (events' & Htrace' & Hall').
  exists (events ++ events')%list. rewrite Htrace', Htrace, app_assoc.
  split; [reflexivity | apply Forall_app; auto].
Qed.

#[global] Hint Resolve adds_ret adds_skip adds_throw adds_escape adds_this
  adds_assign adds_assign_global adds_resolve adds_typeof_defined
  adds_get_prop adds_set_prop : adds.

Ltac adds_step :=
  lazymatch goal with
  | |- adds _ (_ ≫= _) => apply adds_bind; [| intros ?]
  | |- adds _ (perform _) => apply adds_perform; reflexivity
  | |- adds _ (log _ _) => apply adds_perform; reflexivity
  | |- adds _ (if ?b then _ else _) => destruct b
  | |- adds _ (match ?x with _ => _ end) => destruct x
  | |- adds _ _ => solve [auto with adds]
  end.

Ltac adds_all := repeat adds_step.

Lemma adds_handler_table_requests {A : Type} P :
  adds P (handler_table_requests : Js A).
Proof. unfold handler_table_requests. adds_all. Qed.

#[global] Hint Resolve adds_handler_table_requests : adds.

Lemma adds_onRequest_dispatched (frame : frame) data :
  adds (λ e, may_add (SocketMessage frame) e = true)
    (_onRequest ThisHandlerTable data).
Proof. unfold _onRequest, requests_set, emit. adds_all. Qed.

Lemma adds_onResponse_dispatched (frame : frame) data :
  adds (λ e, may_add (SocketMessage frame) e = true)
    (_onResponse ThisHandlerTable data).
Proof.
  unfold _onResponse, requests_get, requests_delete, call. adds_all.
Qed.

Lemma adds_onMessageFromServer data :
  adds (λ e, may_add (SocketMessage data) e = true)
    (_onMessageFromServer data).
Proof.
  unfold _onMessageFromServer, emit.
  apply adds_bind; [auto with adds | intros c].
  apply adds_bind; [| intros ?; apply adds_perform; reflexivity].
  destruct (truthy _); [| auto with adds].
  unfold apply_handler, call.
  destruct (read _ _) as [| | | | | | | [text | | | name]]; auto with adds.
  - apply adds_perform. reflexivity.
  - apply adds_onRequest_dispatched.
  - apply adds_onResponse_dispatched.
Qed.

Lemma adds_fill_reverse_lookup P t keys commandCount :
  adds P (fill_reverse_lookup t keys commandCount).
Proof.
  revert commandCount.
  induction keys as [| i rest IH]; intros commandCount; simpl;
    unfold own_entry; adds_all; apply IH.
Qed.

#[global] Hint Resolve adds_fill_reverse_lookup : adds.

Lemma adds_handshake data :
  adds (λ e, may_add (SocketMessage data) e = true) (handshake data).
Proof.
  unfold handshake, define, call. adds_all.
Qed.

Lemma step_adds (a : action) (w : world) :
  exists events,
    trace (step a w) = (trace w ++ events)%list /\
    Forall (λ e, may_add a e = true) events.
Proof.
  revert w. change (adds (λ e, may_add a e = true)
                      (λ w, (Normal tt, step a w))).
  assert (Hexec : forall (m : Js unit),
             (forall w, exec m w = step a w) ->
             adds (λ e, may_add a e = true) m ->
             adds (λ e, may_add a e = true) (λ w, (Normal tt, step a w))).
  { intros m Hm H w. destruct (H w) as (events & Htrace & Hall).
    exists events. unfold exec at 1. simpl. rewrite <- Hm. auto. }
  destruct a as [url cb | name cb | name data | env name data cb | id data
                 | | data | data | data].
  - apply (Hexec (start url cb)); [reflexivity |]. unfold start. adds_all.
  - apply (Hexec (define name cb ≫= λ _, skip)).
    + intros w. simpl. rewrite exec_bind. unfold exec.
      destruct (define name cb w) as [[? | ? |] ?]; reflexivity.
    + unfold define. adds_all.
  - apply (Hexec (send name data)); [reflexivity |].
    unfold send, io_send. adds_all.
  - apply (Hexec (request env name data cb)); [reflexivity |].
    unfold request, newIdHex, send, io_send. adds_all.
  - apply (Hexec (response id data)); [reflexivity |].
    unfold response, send, io_send. adds_all.
  - apply (Hexec on_connect); [reflexivity |].
    unfold on_connect, _onConnectToServer, emit. adds_all.
  - apply (Hexec (on_message data)); [reflexivity |]. unfold on_message.
    apply adds_bind; [apply adds_handshake |].
    intros _. apply adds_onMessageFromServer.
  - apply (Hexec (on_disconnect data)); [reflexivity |].
    unfold on_disconnect, _onDisconnectFromServer.
    rewrite disconnect_notice. unfold emit. adds_all.
  - apply (Hexec (on_error data)); [reflexivity |].
    unfold on_error, _onError. adds_all.
Qed.

(** X17.  The trace only grows, and each action adds only events of its
    own kind: [start] logs and sets up the socket; [define] only logs;
    [send], [request] and [response] log or hand the socket a frame;
    connects and disconnects log and emit; errors only log; frames log,
    emit and call functions.  So no event from the socket ever makes the
    component send a frame, open a socket or register a listener, and no
    call of the interface emits an event or calls a function. *)
Theorem step_adds_only_its_events (a : action) (w : world) :
  exists events,
    trace (step a w) = (trace w ++ events)%list /\
    forallb (may_add a) events = true.
Proof.
  destruct (step_adds a w) as (events & Htrace & Hall).
  exists events. split; [exact Htrace |].
  apply forallb_forall. intros e He.
  rewrite Forall_forall in Hall. apply Hall.
  apply list_elem_of_In. exact He.
Qed.

(** ** What is handed to the socket *)

Ltac added_events :=
  first
    [ exists []; split; [symmetry; apply app_nil_r | constructor]
    | eexists; split; [reflexivity | repeat constructor; simpl; eauto] ].

Lemma step_sends_declared (a : action) (w : world) :
  exists events,
    trace (step a w) = (trace w ++ events)%list /\
    Forall (declared_send (_networkCommandsLookup (self w))) events.
Proof.
  destruct (is_socket_event a || negb (is_request a || match a with
                                         | CallSend _ _ | CallResponse _ _ =>
                                             true
                                         | _ => false
                                         end)) eqn:Hkind.
  - destruct (step_adds a w) as (events & Htrace & Hall).
    exists events. split; [exact Htrace |].
    eapply Forall_impl; [exact Hall |].
    intros e He. destruct e; try exact I.
    destruct a; simpl in Hkind, He; discriminate.
  - destruct a as [| | name data | env name data cb | id data | | | |];
      try discriminate Hkind; simpl.
    + run_js.
      destruct (_networkCommandsLookup (self w) !! to_key name) eqn:Hk;
        cbn; [| destruct (is_inherited (to_key name)) eqn:Hin; cbn];
        try destruct (_io (self w)); cbn; added_events.
    + unfold request, newIdHex. run_js.
      destruct (_networkCommandsLookup (self w) !! "_igeRequest") eqn:Hk;
        cbn; [destruct (_io (self w)) |]; cbn; added_events.
    + unfold response, get_prop. run_js.
      destruct (truthy (read (_requests (self w)) (to_key id))) eqn:Htruthy;
        [| added_events].
      destruct (read (_requests (self w)) (to_key id));
        try discriminate Htruthy; cbn;
        destruct (_networkCommandsLookup (self w) !! "_igeResponse") eqn:Hk;
        cbn; try destruct (_io (self w)); cbn; added_events.
Qed.

Lemma step_sends_in_step (a : action) (w : world) :
  sends_in_step w -> sends_in_step (step a w).
Proof.
  intros Hinv.
  destruct (step_sends_declared a w) as (events & Htrace & Hall).
  pose proof (step_within a w) as Hfp.
  unfold sends_in_step in *.
  destruct (_initDone (self w)) eqn:Hdone.
  - destruct (run_keeps_tables [a] w Hdone) as (H1 & H2 & _).
    simpl in H1, H2. rewrite H1, H2, Htrace.
    apply Forall_app. split; assumption.
  - destruct Hinv as [Hempty Hnone].
    destruct a as [url cb | name cb | name data | env name data cb | id data
                   | | [ncmds | i p] | data | data];
      try (assert (H1 : unchanged F_initDone (self w) (self (step _ w)))
             by (apply Hfp; simpl; rewrite ?Hdone; not_in_fields);
           assert (H3 : unchanged F_networkCommandsLookup (self w)
                          (self (step _ w)))
             by (apply Hfp; simpl; rewrite ?Hdone; not_in_fields);
           unfold unchanged in H1, H3; rewrite H1, H3, Hdone, Htrace;
           split; [exact Hempty |];
           apply Forall_app; split; [exact Hnone |];
           rewrite <- Hempty; exact Hall).
    destruct (first_frame_installs ncmds w Hdone) as (T1 & T2).
    rewrite T1, T2, Htrace. apply Forall_app. split.
    + eapply Forall_impl; [exact Hnone |].
      intros e He. destruct e as [| | | | [i | name] ? |]; try exact I.
      * destruct He as [name Hname]. inversion Hname.
      * exact He.
    + destruct (step_adds (SocketMessage (InitFrame ncmds)) w)
        as (events' & Htrace' & Hall').
      rewrite Htrace in Htrace'. apply app_inv_head in Htrace'. subst events'.
      eapply Forall_impl; [exact Hall' |].
      intros e He. destruct e; try exact I. discriminate He.
Qed.

(** X18.  What the socket is handed in place of an index is an index of
    the command table, or else a member every object inherits, which
    [send] finds under names such as [toString].  Starting from a
    component that has not seen a handshake, whose command table is empty
    and that has sent nothing, after any session every frame handed to
    the socket carries one or the other; in particular no index at all is
    sent before the handshake. *)
Theorem sent_indices_are_declared
  (actions : list action) (w : world) (commandIndex : sent_index)
  (data : value) :
  _initDone (self w) = false ->
  _networkCommandsLookup (self w) = ∅ ->
  trace w = [] ->
  NetIoSend commandIndex data ∈ trace (run actions w) ->
  match commandIndex with
  | Declared i =>
      exists name,
        _networkCommandsLookup (self (run actions w)) !! name = Some i
  | Inherited name => is_inherited name = true
  end.
Proof.
  intros Hinit Hempty Htrace Hsent.
  assert (Hinv : sends_in_step (run actions w)).
  { assert (H0 : sends_in_step w).
    { unfold sends_in_step. rewrite Hinit, Htrace. split; [exact Hempty |].
      constructor. }
    clear Hinit Hempty Htrace Hsent. revert w H0.
    induction actions as [| a actions IH]; intros w H0; simpl;
      [exact H0 | apply IH, step_sends_in_step, H0]. }
  unfold sends_in_step in Hinv.
  destruct (_initDone (self (run actions w))).
  - rewrite Forall_forall in Hinv. apply (Hinv _ Hsent).
  - destruct Hinv as [Hl Hnone]. rewrite Forall_forall in Hnone.
    rewrite Hl. apply (Hnone _ Hsent).
Qed.

(** ** Instances of the further properties *)



Lemma repeated_id_replaces_request_witness :
  toString16 stuck_env (_idCounter (self playing) + 2) =
    toString16 stuck_env (_idCounter (self playing) + 1) /\
  _requests
    (self (exec (request stuck_env (VStr "move") VNull
                   (VFun (Collaborator "second")))
             (exec (request stuck_env (VStr "chat") (VStr "hi")
                      (VFun (Collaborator "first"))) playing))) =
  <["58d15e176f3" :=
      VObj [("id", VStr "58d15e176f3"); ("cmd", VStr "move");
            ("data", VNull); ("callback", VFun (Collaborator "second"));
            ("timestamp", VNum 1700000000000)]]> (_requests (self playing)).
Proof.
  split; [reflexivity |].
  apply (repeated_id_replaces_request stuck_env stuck_env
           (VStr "chat") (VStr "hi") (VFun (Collaborator "first"))
           (VStr "move") VNull (VFun (Collaborator "second")) playing).
  reflexivity.
Defined.

Lemma response_forgets_own_request_witness :
  _requests (self playing)
    !! toString16 sample_env (_idCounter (self playing) + 1) = None /\
  _networkCommandsLookup (self playing) !! "_igeRequest" = Some 3 /\
  _networkCommandsLookup (self playing) !! "_igeResponse" = Some 4 /\
  _io (self playing) = Some (VStr "ws://play.example:2000") /\
  _requests
    (self (exec (response (VStr "a41f1") (VStr "pong"))
             (exec (request sample_env (VStr "chat") (VStr "hi")
                      (VFun (Collaborator "onReply"))) playing))) =
    _requests (self playing).
Proof.
  split; [reflexivity |]. split; [reflexivity |]. split; [reflexivity |].
  split; [reflexivity |].
  refine (proj1 (response_forgets_own_request sample_env (VStr "chat")
                   (VStr "hi") (VFun (Collaborator "onReply")) (VStr "pong")
                   (VStr "ws://play.example:2000") 3 4 playing _ _ _ _));
    reflexivity.
Defined.

Lemma response_undeclared_still_forgets_witness :
  _requests (self untracked) !! "a41f1" = Some outgoing /\
  truthy outgoing = true /\
  _networkCommandsLookup (self untracked) !! "_igeResponse" = None /\
  _requests
    (self (exec (response (VStr "a41f1") (VStr "pong")) untracked))
    !! "a41f1" = None.
Proof.
  split; [reflexivity |]. split; [reflexivity |]. split; [reflexivity |].
  unfold exec.
  rewrite (response_undeclared_still_forgets (VStr "a41f1") (VStr "pong")
             outgoing untracked eq_refl eq_refl eq_refl).
  apply lookup_delete_eq.
Defined.

Lemma sent_indices_are_declared_witness :
  _initDone (self browser) = false /\
  _networkCommandsLookup (self browser) = ∅ /\
  trace browser = [] /\
  exists name,
    _networkCommandsLookup
      (self (run [CallSend (VStr "move") VNull;
                  CallStart (VStr "ws://play.example:2000") VUndef;
                  SocketMessage (InitFrame sample_table);
                  CallSend (VStr "move") (VStr "north")] browser))
      !! name = Some 1.
Proof.
  split; [reflexivity |]. split; [reflexivity |]. split; [reflexivity |].
  apply (sent_indices_are_declared
           [CallSend (VStr "move") VNull;
            CallStart (VStr "ws://play.example:2000") VUndef;
            SocketMessage (InitFrame sample_table);
            CallSend (VStr "move") (VStr "north")] browser 1 (VStr "north"));
    try reflexivity.
  apply list_elem_of_In. vm_compute. auto 20.
Defined.

(** ** Pending requests *)

(** What [response] does to the request map: nothing, or it removes the
    entry of the id it was given. *)
Lemma response_requests (requestId data : value) (w : world) :
  let w' := exec (response requestId data) w in
  _requests (self w') = _requests (self w) \/
  _requests (self w') = delete (to_key requestId) (_requests (self w)).
Proof.
  unfold response, send, io_send, get_prop, exec, log, this, assign,
    perform, skip, throw, mbind, Js_bind, mret, Js_ret.
  cbn.
  destruct (truthy (read (_requests (self w)) (to_key requestId)));
    [| auto].
  destruct (read (_requests (self w)) (to_key requestId)); cbn; auto;
    destruct (table_read (_networkCommandsLookup (self w)) "_igeResponse");
    cbn; auto; destruct (_io (self w)); cbn; auto.
Qed.

(** X19.  The entry stored under an id changes only through a call of
    [request] that generates this id or a call of [response] that names
    it.  Any session without such a call, whatever else is in it (frames
    from the server, the reply to the request among them, disconnects,
    errors, restarts, other requests and responses), leaves the entry
    exactly as it was: nothing expires, and nothing the server sends
    resolves or removes a pending request. *)
Theorem pending_requests_stay
  (actions : list action) (w : world) (id : string) :
  disturbs id (_idCounter (self w)) actions = false ->
  _requests (self (run actions w)) !! id = _requests (self w) !! id.
Proof.
  revert w. induction actions as [| a actions IH]; intros w Hno; simpl;
    [reflexivity |].
  pose proof (step_within a w) as Hfp.
  destruct a as [url cb | name cb | name data | env name data cb | rid data
                 | | frame | data | data];
    simpl in Hno;
    try (rewrite IH;
         [ f_equal; apply (Hfp F_requests); simpl;
           try destruct frame; try destruct (_initDone (self w));
           not_in_fields
         | replace (_idCounter (self (step _ w))) with (_idCounter (self w));
           [exact Hno |];
           symmetry; apply (Hfp F_idCounter); simpl;
           try destruct frame; try destruct (_initDone (self w));
           not_in_fields ]).
  - apply orb_false_elim in Hno as [Hid Hno].
    apply String.eqb_neq in Hid.
    rewrite IH.
    + simpl. rewrite request_stores_entry.
      apply lookup_insert_ne. exact Hid.
    + simpl. rewrite request_bumps_counter. exact Hno.
  - apply orb_false_elim in Hno as [Hid Hno].
    apply String.eqb_neq in Hid.
    rewrite IH.
    + simpl. destruct (response_requests rid data w) as [-> | ->];
        [reflexivity | apply lookup_delete_ne; exact Hid].
    + replace (_idCounter (self (step (CallResponse rid data) w)))
        with (_idCounter (self w)); [exact Hno |].
      symmetry. apply (Hfp F_idCounter). simpl. not_in_fields.
Qed.

Lemma pending_requests_stay_witness :
  disturbs "a41f1" (_idCounter (self awaiting))
    [SocketMessage (DataFrame 4 reply);
     SocketDisconnect (VStr "booted");
     CallStart VUndef VUndef;
     CallRequest sample_env (VStr "move") VNull VUndef;
     CallResponse (VStr "7b20") (VStr "pong")] = false /\
  _requests
    (self (run [SocketMessage (DataFrame 4 reply);
                SocketDisconnect (VStr "booted");
                CallStart VUndef VUndef;
                CallRequest sample_env (VStr "move") VNull VUndef;
                CallResponse (VStr "7b20") (VStr "pong")]
             awaiting)) !! "a41f1" =
  _requests (self awaiting) !! "a41f1".
Proof.
  split; [reflexivity |].
  apply (pending_requests_stay
           [SocketMessage (DataFrame 4 reply);
            SocketDisconnect (VStr "booted");
            CallStart VUndef VUndef;
            CallRequest sample_env (VStr "move") VNull VUndef;
            CallResponse (VStr "7b20") (VStr "pong")]
           awaiting "a41f1").
  reflexivity.
Defined.

(** ** Tables the handshake trips over or settles by order *)

(** The loop leaves alone an index that none of the names it visits has. *)
Lemma reverse_entries_other (t : table) (keys : list string)
  (index : gmap Z string) (i : Z) :
  (forall n, n ∈ keys -> t !! n <> Some i) ->
  reverse_entries t keys index !! i = index !! i.
Proof.
  revert index. induction keys as [| k rest IH]; intros index Hnone; simpl;
    [reflexivity |].
  assert (Hrest : forall n, n ∈ rest -> t !! n <> Some i)
    by (intros n Hn; apply Hnone; right; exact Hn).
  destruct (t !! k) as [commandIndex |] eqn:Hk.
  - rewrite IH by exact Hrest. apply lookup_insert_ne.
    intros ->. apply (Hnone k); [left | exact Hk].
  - apply IH, Hrest.
Qed.

(** X20.  When commands share an index, the reverse table gives the
    index to the one the loop of lines 49 to 54 visits last: after the
    first handshake frame, for a table that declares no command named
    [hasOwnProperty], the index [i] of a command [name] maps back to
    [name] whenever no command visited after [name] has the index [i],
    whatever commands visited before it have. *)
Theorem shared_index_goes_to_last_name
  (w : world) (ncmds : table) (earlier later : list string)
  (name : string) (i : Z) :
  _initDone (self w) = false ->
  ncmds !! "hasOwnProperty" = None ->
  own_keys ncmds = (earlier ++ name :: later)%list ->
  ncmds !! name = Some i ->
  (forall n, n ∈ later -> ncmds !! n <> Some i) ->
  _networkCommandsIndex (self (step (SocketMessage (InitFrame ncmds)) w)) !! i
  = Some name.
Proof.
  intros Hinit Hown Hkeys Hname Hlater.
  destruct (handshake_tables ncmds w Hinit Hown) as (_ & _ & H3 & _).
  rewrite H3, Hkeys. unfold reverse_entries.
  rewrite fold_left_app. simpl. rewrite Hname.
  fold (reverse_entries ncmds earlier (_networkCommandsIndex (self w))).
  fold (reverse_entries ncmds later
          (<[i := name]>
             (reverse_entries ncmds earlier
                (_networkCommandsIndex (self w))))).
  rewrite reverse_entries_other by exact Hlater.
  apply lookup_insert_eq.
Qed.

Lemma shared_index_goes_to_last_name_witness :
  let t : table := {[ "walk" := 1; "chat" := 2; "move" := 1 ]} in
  _initDone (self connecting) = false /\
  t !! "hasOwnProperty" = None /\
  own_keys t = (["walk"; "chat"] ++ "move" :: [])%list /\
  t !! "move" = Some 1 /\
  _networkCommandsIndex (self (step (SocketMessage (InitFrame t)) connecting))
    !! 1 = Some "move".
Proof.
  intros t.
  split; [reflexivity |]. split; [reflexivity |].
  split; [vm_compute; reflexivity |]. split; [reflexivity |].
  apply (shared_index_goes_to_last_name connecting t ["walk"; "chat"] []
           "move" 1).
  - reflexivity.
  - reflexivity.
  - vm_compute. reflexivity.
  - reflexivity.
  - intros n Hn. inversion Hn.
Defined.

(** X21.  A table that declares a command named [hasOwnProperty] stops
    the handshake at line 50, where the command's index is called in
    place of the built-in.  The first handshake frame with such a table
    ends in a TypeError; it has set the handshake flag and installed the
    table, and nothing else: every other property, the reverse table and
    the handler table among them, the global scope and the trace are as
    before, so nothing was logged, emitted or called.  The flag being
    set, no later frame takes the handshake up again, and the start
    callback is never called, whatever happens. *)
Theorem hasOwnProperty_command_stops_handshake
  (w : world) (ncmds : table) (i : Z) (later : list action) :
  _initDone (self w) = false ->
  ncmds !! "hasOwnProperty" = Some i ->
  let w' := step (SocketMessage (InitFrame ncmds)) w in
  outcome (on_message (InitFrame ncmds)) w = Throw TypeError /\
  _initDone (self w') = true /\
  _networkCommandsLookup (self w') = ncmds /\
  within [F_initDone; F_networkCommandsLookup] w w' /\
  scope w' = scope w /\
  trace w' = trace w /\
  start_calls (trace (run later w')) = start_calls (trace w).
Proof.
  intros Hinit Hown w'.
  assert (Hstep : on_message (InitFrame ncmds) w =
                    (Throw TypeError,
                     with_self (set_networkCommandsLookup ncmds)
                       (with_self (set_initDone true) w))).
  { unfold on_message, mbind, Js_bind.
    rewrite (handshake_aborts ncmds i) by assumption. reflexivity. }
  unfold w', outcome. simpl step. unfold exec. rewrite Hstep. simpl.
  split; [reflexivity |]. split; [reflexivity |]. split; [reflexivity |].
  split; [intros f Hf; destruct f; try reflexivity;
          exfalso; apply Hf; repeat constructor |].
  split; [reflexivity |]. split; [reflexivity |].
  assert (Hs : settled ncmds (start_calls (trace w))
                 (with_self (set_networkCommandsLookup ncmds)
                    (with_self (set_initDone true) w)))
    by (unfold settled; auto).
  apply (run_settled _ _ later) in Hs. apply Hs.
Qed.

Lemma hasOwnProperty_command_stops_handshake_witness :
  let t : table := {[ "hasOwnProperty" := 1; "move" := 2 ]} in
  _initDone (self connecting) = false /\
  t !! "hasOwnProperty" = Some 1 /\
  outcome (on_message (InitFrame t)) connecting = Throw TypeError /\
  start_calls
    (trace (run [SocketMessage (InitFrame sample_table);
                 CallStart VUndef (VFun (Collaborator "again"));
                 SocketMessage (InitFrame sample_table)]
              (step (SocketMessage (InitFrame t)) connecting))) =
    start_calls (trace connecting).
Proof.
  intros t.
  pose proof (hasOwnProperty_command_stops_handshake connecting t 1
                [SocketMessage (InitFrame sample_table);
                 CallStart VUndef (VFun (Collaborator "again"));
                 SocketMessage (InitFrame sample_table)]
                eq_refl eq_refl)
    as (Hthrow & _ & _ & _ & _ & _ & Hcalls).
  split; [reflexivity |]. split; [reflexivity |].
  split; [exact Hthrow | exact Hcalls].
Defined.
